(** * mcp-assistant: a shallow embedding of the client and the server

    The development follows [src/mcp_client.py] and [src/mcp_server.py].
    Python strings are [string]; a Python [dict] with string keys is a
    [gmap string _]; code that awaits the MCP session, prints, or reads
    the console runs in the monad [M] below, which threads a [world]
    (the interaction trace, the console output and the checkpointed
    conversations) and propagates raised exceptions. *)

From Stdlib Require Import String Ascii List Arith Lia.
From stdpp Require Import base strings gmap list pretty.

Local Open Scope string_scope.
Local Open Scope list_scope.

(** ** Python primitives used by the sources *)

Module Py.

(** The exceptions that occur in the sources.  Every constructor is a
    subclass of Python's [Exception], so [except Exception] catches all
    of them; signals outside that class (keyboard interrupt, task
    cancellation) are outside this model. *)
Inductive exn : Type :=
| EOFError
| ValueError (msg : string)
| TypeError (msg : string)
| AttributeError (msg : string)
| IndexError (msg : string)
| GraphRecursionError (msg : string)
| DisambiguationError (title : string) (options : list string)
| PageError (pageid : string)
| Exception (msg : string).

Definition dq : string := String (ascii_of_nat 34) EmptyString.
Definition nl : string := String (ascii_of_nat 10) EmptyString.

(** [sep.join(xs)] *)
Fixpoint join (sep : string) (xs : list string) : string :=
  match xs with
  | [] => EmptyString
  | [x] => x
  | x :: rest => x +:+ sep +:+ join sep rest
  end.

(** [str(e)] *)
Definition str_exn (e : exn) : string :=
  match e with
  | EOFError => EmptyString
  | ValueError m | TypeError m | AttributeError m | IndexError m
  | GraphRecursionError m | Exception m => m
  | DisambiguationError t opts =>
      dq +:+ t +:+ dq +:+ " may refer to: " +:+ nl +:+ join nl opts
  | PageError p =>
      "Page id " +:+ dq +:+ p +:+ dq +:+ " does not match any pages. Try another id!"
  end.

(** Characters are code points below 256.  [str.isspace] on them. *)
Definition isspace (c : ascii) : bool :=
  let n := nat_of_ascii c in
  (((9 <=? n) && (n <=? 13)) || ((28 <=? n) && (n <=? 32))
   || (n =? 133) || (n =? 160))%nat.

(** [str.lower] on one character: the upper-case letters of that range
    are 65..90 and 192..222 without 215. *)
Definition lower_char (c : ascii) : ascii :=
  let n := nat_of_ascii c in
  if (((65 <=? n) && (n <=? 90))
      || ((192 <=? n) && (n <=? 222) && negb (n =? 215)))%nat
  then ascii_of_nat (n + 32) else c.

Fixpoint lower (s : string) : string :=
  match s with
  | EmptyString => EmptyString
  | String c rest => String (lower_char c) (lower rest)
  end.

Fixpoint lstrip (s : string) : string :=
  match s with
  | EmptyString => EmptyString
  | String c rest => if isspace c then lstrip rest else s
  end.

Definition rstrip (s : string) : string := String.rev (lstrip (String.rev s)).

(** [s.strip()] *)
Definition strip (s : string) : string := rstrip (lstrip s).

(** [s.startswith(p)] *)
Definition startswith (s p : string) : bool := String.prefix p s.

(** Every character, and the lower-case letters [a]..[z]; used to check
    facts about characters by running through all of them. *)
Definition all_ascii : list ascii := map ascii_of_nat (seq 0 256).

Definition lower_letter (t : ascii) : bool :=
  ((97 <=? nat_of_ascii t) && (nat_of_ascii t <=? 122))%nat.

Fixpoint lower_letters (token : string) : bool :=
  match token with
  | EmptyString => true
  | String t rest => lower_letter t && lower_letters rest
  end.

(** The outcome of running a piece of Python: a value or a raised
    exception. *)
Inductive result (A : Type) : Type :=
| Ok (a : A)
| Raise (e : exn).
Arguments Ok {A} a.
Arguments Raise {A} e.

(** *** [shlex.split(s)]: POSIX mode, [whitespace_split] on, no comment
    characters.  The lexer state is [' '] (between tokens), ['a'] (in a
    word), a quote character, or the escape character together with the
    state to come back to. *)
Inductive lex_state : Type :=
| LexSpace
| LexWord
| LexQuote (q : ascii)
| LexEscape (escapedstate : lex_state).

Definition shlex_whitespace (c : ascii) : bool :=
  let n := nat_of_ascii c in
  ((n =? 32) || (n =? 9) || (n =? 13) || (n =? 10))%nat.
Definition shlex_quote (c : ascii) : bool :=
  let n := nat_of_ascii c in ((n =? 39) || (n =? 34))%nat.
Definition shlex_escape (c : ascii) : bool := (nat_of_ascii c =? 92)%nat.
(** Only a double quote allows escapes inside it. *)
Definition shlex_escapedquote (c : ascii) : bool := (nat_of_ascii c =? 34)%nat.

Definition push (token : string) (c : ascii) : string :=
  token +:+ String c EmptyString.

(** A token is handed out when it is non-empty or was quoted. *)
Definition emits (token : string) (quoted : bool) : bool :=
  negb (String.eqb token EmptyString) || quoted.

Fixpoint shlex_run (input : string) (state : lex_state) (token : string)
  (quoted : bool) (out : list string) : result (list string) :=
  match input with
  | EmptyString =>
      match state with
      | LexSpace => Ok out
      | LexWord => Ok (if emits token quoted then out ++ [token] else out)
      | LexQuote _ => Raise (ValueError "No closing quotation")
      | LexEscape _ => Raise (ValueError "No escaped character")
      end
  | String c rest =>
      match state with
      | LexSpace =>
          if shlex_whitespace c then
            if emits token quoted
            then shlex_run rest LexSpace EmptyString false (out ++ [token])
            else shlex_run rest LexSpace token quoted out
          else if shlex_escape c then
            shlex_run rest (LexEscape LexWord) token quoted out
          else if shlex_quote c then
            shlex_run rest (LexQuote c) token quoted out
          else
            shlex_run rest LexWord (String c EmptyString) quoted out
      | LexQuote q =>
          if Ascii.eqb c q then
            shlex_run rest LexWord token true out
          else if shlex_escape c && shlex_escapedquote q then
            shlex_run rest (LexEscape (LexQuote q)) token true out
          else
            shlex_run rest (LexQuote q) (push token c) true out
      | LexEscape back =>
          let token' :=
            match back with
            | LexQuote q =>
                if negb (shlex_escape c) && negb (Ascii.eqb c q)
                then push token (ascii_of_nat 92) else token
            | _ => token
            end in
          shlex_run rest back (push token' c) quoted out
      | LexWord =>
          if shlex_whitespace c then
            if emits token quoted
            then shlex_run rest LexSpace EmptyString false (out ++ [token])
            else shlex_run rest LexSpace token quoted out
          else if shlex_quote c then
            shlex_run rest (LexQuote c) token quoted out
          else if shlex_escape c then
            shlex_run rest (LexEscape LexWord) token quoted out
          else
            shlex_run rest LexWord (push token c) quoted out
      end
  end.

Definition shlex_split (s : string) : result (list string) :=
  shlex_run s LexSpace EmptyString false [].

(** [s in text] for strings. *)
Definition contains (text s : string) : Prop :=
  exists pre post, text = pre +:+ s +:+ post.

End Py.
Export Py.

(** ** MCP protocol data and the effectful runtime *)

Module Mcp.

(** One item of a tool result.  Only text items carry a [text]
    attribute. *)
Inductive content_item : Type :=
| TextContent (text : string)
| ImageContent (data : string).

Record CallToolResult := { content : list content_item }.

Record McpTool := { tool_name : string; tool_description : option string }.

Record ListToolsResult := { tools : list McpTool }.

Record PromptArgument := { arg_name : string }.

Record Prompt := {
  prompt_name : string;
  arguments : option (list PromptArgument)
}.

Record ListPromptsResult := { prompts : list Prompt }.

Record GetPromptResult := { messages : list content_item }.

(** Chat messages of the conversation. *)
Record tool_call := { tc_name : string; tc_arg : string; tc_id : string }.

Inductive message : Type :=
| SystemMessage (text : string)
| HumanMessage (text : string)
| AIMessage (text : string) (tool_calls : list tool_call)
| ToolMessage (text : string) (tool_call_id : string).

(** What the program does to the outside, in order. *)
Inductive event : Type :=
| EvListTools
| EvCallTool (name : string) (args : gmap string string)
| EvListPrompts
| EvGetPrompt (name : string) (args : gmap string string)
| EvModel (context : list message).

(** The MCP session: each remote operation answers as a function of the
    interaction so far, so a backend may change between calls.  The last
    field is the interpreter's part in it: the address, in hexadecimal,
    that it gives the next object created for the session's tools. *)
Record session := {
  s_list_tools : list event -> result ListToolsResult;
  s_call_tool : list event -> string -> gmap string string -> result CallToolResult;
  s_list_prompts : list event -> result (option ListPromptsResult);
  s_get_prompt : list event -> string -> gmap string string -> result GetPromptResult;
  s_address : list event -> string
}.

Record world := {
  trace : list event;
  stdout : list string;
  checkpoints : gmap string (list message)
}.

Definition M (A : Type) : Type := world -> world * result A.

Definition ret {A} (a : A) : M A := fun w => (w, Ok a).
Definition raise {A} (e : exn) : M A := fun w => (w, Raise e).
Definition bind {A B} (m : M A) (k : A -> M B) : M B :=
  fun w => match m w with
           | (w', Ok a) => k a w'
           | (w', Raise e) => (w', Raise e)
           end.

(** [try: body  except Exception as e: handler e] *)
Definition try_except {A} (body : M A) (handler : exn -> M A) : M A :=
  fun w => match body w with
           | (w', Ok a) => (w', Ok a)
           | (w', Raise e) => handler e w'
           end.

Definition lift {A} (r : result A) : M A := fun w => (w, r).

Definition add_event (ev : event) (w : world) : world :=
  {| trace := trace w ++ [ev]; stdout := stdout w; checkpoints := checkpoints w |}.

Definition add_line (line : string) (w : world) : world :=
  {| trace := trace w; stdout := stdout w ++ [line]; checkpoints := checkpoints w |}.

Definition set_checkpoint (thread_id : string) (st : list message) (w : world)
  : world :=
  {| trace := trace w; stdout := stdout w;
     checkpoints := <[thread_id := st]> (checkpoints w) |}.

Definition emit (ev : event) : M unit := fun w => (add_event ev w, Ok tt).

Definition get_trace : M (list event) := fun w => (w, Ok (trace w)).

(** The in-memory checkpointer, keyed by thread id; a thread that was
    never saved has the empty conversation. *)
Definition conversation (w : world) (thread_id : string) : list message :=
  default [] (checkpoints w !! thread_id).

Definition get_state (thread_id : string) : M (list message) :=
  fun w => (w, Ok (conversation w thread_id)).

Definition put_state (thread_id : string) (st : list message) : M unit :=
  fun w => (set_checkpoint thread_id st w, Ok tt).

(** [print(line)] *)
Definition print (line : string) : M unit := fun w => (add_line line w, Ok tt).

Declare Scope py_scope.
Delimit Scope py_scope with py.
Notation "x <- m ;; k" := (bind m (fun x => k))
  (at level 100, m at next level, right associativity) : py_scope.
Notation "m ;;; k" := (bind m (fun _ => k))
  (at level 100, right associativity) : py_scope.
Local Open Scope py_scope.

(** [await session.list_tools()] and friends: consult the backend on
    the trace so far, then record the call. *)
Definition list_tools (s : session) : M ListToolsResult :=
  t <- get_trace ;; emit EvListTools ;;; lift (s_list_tools s t).

Definition call_tool (s : session) (name : string) (args : gmap string string)
  : M CallToolResult :=
  t <- get_trace ;; emit (EvCallTool name args) ;;; lift (s_call_tool s t name args).

Definition session_list_prompts (s : session) : M (option ListPromptsResult) :=
  t <- get_trace ;; emit EvListPrompts ;;; lift (s_list_prompts s t).

Definition get_prompt (s : session) (name : string) (args : gmap string string)
  : M GetPromptResult :=
  t <- get_trace ;; emit (EvGetPrompt name args) ;;; lift (s_get_prompt s t name args).

End Mcp.
Export Mcp.
Local Open Scope py_scope.

(** ** The client, [src/mcp_client.py] *)

Module Client.

(** A LangChain [Tool]: name, description and the function given as
    [func].  [func t x] is what awaiting [t.func(x)] does; [unawaited t]
    is the text of [t.func(x)] when the call is made and its result is
    not awaited, which for an [async def] is the repr of a coroutine
    object. *)
Record Tool := {
  name : string;
  description : string;
  func : string -> M string;
  unawaited : list event -> string
}.

(** [item.text]: an attribute error on an item that has no text. *)
Definition text_of (c : content_item) : M string :=
  match c with
  | TextContent t => ret t
  | ImageContent _ =>
      raise (AttributeError "'ImageContent' object has no attribute 'text'")
  end.

(** [create_tool_func(tool_name)] returns [tool_func]; the session is the
    one [load_mcp_tools] was given. *)
Definition tool_func (s : session) (tool_name : string) (input_data : string)
  : M string :=
  try_except
    (result <- call_tool s tool_name {[ "query" := input_data ]} ;;
     match content result with
     | c :: _ => text_of c
     | [] => ret "No result"
     end)
    (fun e => ret ("Error calling tool " +:+ tool_name +:+ ": " +:+ str_exn e)).

Definition create_tool_func (s : session) (tool_name : string)
  : string -> M string := tool_func s tool_name.

(** [tool.description or f"Tool: {tool.name}"] *)
Definition description_or_default (t : McpTool) : string :=
  match tool_description t with
  | Some d => if String.eqb d EmptyString then "Tool: " +:+ tool_name t else d
  | None => "Tool: " +:+ tool_name t
  end.

(** [str] of the coroutine object that a call of [tool_func] makes. *)
Definition coroutine_repr (address : string) : string :=
  "<coroutine object load_mcp_tools.<locals>.create_tool_func.<locals>.tool_func at 0x"
    +:+ address +:+ ">".

Definition make_tool (s : session) (t : McpTool) : Tool :=
  {| name := tool_name t;
     description := description_or_default t;
     func := create_tool_func s (tool_name t);
     unawaited := fun tr => coroutine_repr (s_address s tr) |}.

(** The loop of [load_mcp_tools] appends one [Tool] per discovered tool. *)
Fixpoint build_tools (s : session) (langchain_tools : list Tool)
  (remaining : list McpTool) : list Tool :=
  match remaining with
  | [] => langchain_tools
  | t :: rest => build_tools s (langchain_tools ++ [make_tool s t]) rest
  end.

Definition load_mcp_tools (s : session) : M (list Tool) :=
  tools_response <- list_tools s ;;
  ret (build_tools s [] (tools tools_response)).

(** *** The graph built by [create_graph] *)

(** The language-model service: given the interaction so far and the
    prompt messages, an assistant message (text and requested tool
    calls) or a failure. *)
Definition chat_model : Type :=
  list event -> list message -> result (string * list tool_call).

Definition system_prompt : string :=
  "You are a helpful assistant that uses tools to explore Wikipedia.".

(** [chat_llm.invoke({"messages": msgs})]: the prompt template puts the
    system message first. *)
Definition chat_llm_invoke (llm : chat_model) (msgs : list message) : M message :=
  let context := SystemMessage system_prompt :: msgs in
  t <- get_trace ;;
  emit (EvModel context) ;;;
  r <- lift (llm t context) ;;
  ret (AIMessage (fst r) (snd r)).

(** The [add_messages] reducer of [State]; every new message gets a
    fresh id, so no old message is replaced. *)
Definition add_messages (left right : list message) : list message :=
  left ++ right.

(** [chat_node] returns the state with [messages] set to the reply; the
    reducer appends it. *)
Definition chat_node (llm : chat_model) (st : list message) : M (list message) :=
  reply <- chat_llm_invoke llm st ;;
  ret [reply].

Definition message_text (m : message) : string :=
  match m with
  | SystemMessage t | HumanMessage t | AIMessage t _ | ToolMessage t _ => t
  end.

(** [tools_condition]: to the tool node when the last message asks for
    tools. *)
Definition tools_condition (st : list message) : bool :=
  match last st with
  | Some (AIMessage _ (_ :: _)) => true
  | _ => false
  end.

(** [ToolNode]: one tool message per requested call.  A tool is looked
    up by name in a dict built from the tool list, so of two tools with
    one name the later wins; an unknown name gives an error text.  The
    tools were built with [Tool(func=...)] and no [coroutine]: the node
    calls [func] as a plain function and does not await what it
    returns, so nothing of the function's body runs and the message
    content is the text of the object the call returned. *)
Definition lookup_tool (tools : list Tool) (n : string) : option Tool :=
  find (fun t => String.eqb (name t) n) (rev tools).

Definition run_tool_call (tools : list Tool) (tc : tool_call) : M message :=
  match lookup_tool tools (tc_name tc) with
  | None =>
      ret (ToolMessage
             ("Error: " +:+ tc_name tc +:+ " is not a valid tool, try one of ["
                +:+ join ", " (map name tools) +:+ "].")
             (tc_id tc))
  | Some t =>
      tr <- get_trace ;;
      ret (ToolMessage (unawaited t tr) (tc_id tc))
  end.

Fixpoint run_tool_calls (tools : list Tool) (calls : list tool_call)
  : M (list message) :=
  match calls with
  | [] => ret []
  | tc :: rest =>
      m <- run_tool_call tools tc ;;
      ms <- run_tool_calls tools rest ;;
      ret (m :: ms)
  end.

Definition tool_node (tools : list Tool) (st : list message) : M (list message) :=
  match last st with
  | Some (AIMessage _ calls) => run_tool_calls tools calls
  | _ => raise (ValueError "Last message is not an AIMessage")
  end.

Inductive node : Type := ChatNode | ToolNode.

Record graph := {
  graph_tools : list Tool;
  graph_llm : chat_model;
  recursion_limit : nat
}.

(** The compiled graph runs [START -> chat_node], then [tool_node] and
    back while [tools_condition] says so.  The state is checkpointed
    after the input and after every node; [steps] is what is left of the
    recursion limit. *)
Fixpoint run_graph (g : graph) (thread_id : string) (steps : nat) (nd : node)
  : M (list message) :=
  match steps with
  | 0 => raise (GraphRecursionError "Recursion limit reached without hitting a stop condition.")
  | S steps' =>
      st <- get_state thread_id ;;
      match nd with
      | ChatNode =>
          update <- chat_node (graph_llm g) st ;;
          let st' := add_messages st update in
          put_state thread_id st' ;;;
          if tools_condition st' then run_graph g thread_id steps' ToolNode
          else ret st'
      | ToolNode =>
          update <- tool_node (graph_tools g) st ;;
          put_state thread_id (add_messages st update) ;;;
          run_graph g thread_id steps' ChatNode
      end
  end.

(** [agent.ainvoke({"messages": input}, config)] returns the messages of
    the final state. *)
Definition graph_ainvoke (g : graph) (input : list message) (thread_id : string)
  : M (list message) :=
  st <- get_state thread_id ;;
  put_state thread_id (add_messages st input) ;;;
  run_graph g thread_id (recursion_limit g) ChatNode.

(** Anything with an [ainvoke]; the compiled graph is one. *)
Record Agent := { ainvoke : list message -> string -> M (list message) }.

Definition compile (g : graph) : Agent := {| ainvoke := graph_ainvoke g |}.

Definition default_recursion_limit : nat := 25.

Definition create_graph (llm : chat_model) (s : session) : M Agent :=
  tools <- load_mcp_tools s ;;
  ret (compile {| graph_tools := tools; graph_llm := llm;
                  recursion_limit := default_recursion_limit |}).

(** *** Prompt commands *)

Fixpoint for_each {A} (xs : list A) (body : A -> M unit) : M unit :=
  match xs with
  | [] => ret tt
  | x :: rest => body x ;;; for_each rest body
  end.

Definition print_prompt (p : Prompt) : M unit :=
  print (nl +:+ "Prompt: " +:+ prompt_name p) ;;;
  match arguments p with
  | Some (a :: rest) => for_each (a :: rest) (fun arg => print ("  - " +:+ arg_name arg))
  | _ => print "  - No arguments required."
  end.

(** [list_prompts] returns [None] on every path; the result type has
    room for a list so that what is returned can be compared with one. *)
Definition list_prompts (s : session) : M (option (list Prompt)) :=
  prompt_response <- session_list_prompts s ;;
  match prompt_response with
  | Some {| prompts := p :: ps |} =>
      print (nl +:+ "Available Prompts and Argument Structure:") ;;;
      for_each (p :: ps) print_prompt ;;;
      print (nl +:+ "Use: /prompt <prompt_name> " +:+ dq +:+ "arg1" +:+ dq
               +:+ " " +:+ dq +:+ "arg2" +:+ dq +:+ " ...") ;;;
      ret None
  | _ =>
      print "No prompts found on the server." ;;;
      ret None
  end.

(** [{arg.name: val for arg, val in zip(arguments, args)}]: a later
    pair overwrites an earlier one with the same name. *)
Definition arg_values_of (margs : list PromptArgument) (args : list string)
  : gmap string string :=
  fold_left (fun d '(arg, val) => <[arg_name arg := val]> d) (zip margs args) ∅.

Definition thread_id : string := "wiki-session".

Definition handle_prompt (s : session) (tools : list Tool) (command : string)
  (agent : Agent) : M unit :=
  parts <- lift (shlex_split (strip command)) ;;
  if (length parts <? 2)%nat then
    print ("Usage: /prompt <name> " +:+ dq +:+ "args>" +:+ dq)
  else
    let prompt_name_ := nth 1 parts EmptyString in
    let args := drop 2 parts in
    try_except
      (prompt_def <- session_list_prompts s ;;
       match prompt_def with
       | None => raise (AttributeError "'NoneType' object has no attribute 'prompts'")
       | Some defs =>
           match find (fun p => String.eqb (prompt_name p) prompt_name_) (prompts defs) with
           | None => print ("Prompt '" +:+ prompt_name_ +:+ "' not found.")
           | Some match_ =>
               match arguments match_ with
               | None => raise (TypeError "object of type 'NoneType' has no len()")
               | Some margs =>
                   if negb (length args =? length margs)%nat then
                     let expected := join ", " (map arg_name margs) in
                     print ("Expected " +:+ pretty (length margs)
                              +:+ " arguments: " +:+ expected)
                   else
                     let arg_values := arg_values_of margs args in
                     response <- get_prompt s prompt_name_ arg_values ;;
                     prompt_text <-
                       match messages response with
                       | m :: _ => text_of m
                       | [] => raise (IndexError "list index out of range")
                       end ;;
                     agent_response <- ainvoke agent [HumanMessage prompt_text] thread_id ;;
                     print (nl +:+ "=== Prompt Result ===") ;;;
                     match last agent_response with
                     | Some m => print (message_text m)
                     | None => raise (IndexError "list index out of range")
                     end
               end
           end
       end)
      (fun e => print ("Prompt invocation failed: " +:+ str_exn e)).

(** *** The session loop of [main] *)

Definition exit_tokens : gset string := {[ "exit"; "quit"; "q" ]}.

Inductive flow : Type := Break | Continue.

(** The [try] statement at the end of the loop body: a plain question
    goes to the agent. *)
Definition ask (agent : Agent) (user_input : string) : M unit :=
  try_except
    (response <- ainvoke agent [HumanMessage user_input] thread_id ;;
     match last response with
     | Some m => print ("AI: " +:+ message_text m)
     | None => raise (IndexError "list index out of range")
     end)
    (fun e => print ("Error: " +:+ str_exn e)).

(** One pass through the body of [while True], after [input] returned
    [line]. *)
Definition loop_body (s : session) (tools : list Tool) (agent : Agent)
  (line : string) : M flow :=
  let user_input := strip line in
  if bool_decide (lower user_input ∈ exit_tokens) then ret Break
  else if startswith user_input "/prompts" then
    list_prompts s ;;; ret Continue
  else if startswith user_input "/prompt" then
    handle_prompt s tools user_input agent ;;; ret Continue
  else
    ask agent user_input ;;; ret Continue.

(** [input(prompt)] reads the next console line; at the end of the
    console input it raises [EOFError]. *)
Fixpoint repl (s : session) (tools : list Tool) (agent : Agent)
  (stdin : list string) : M unit :=
  print (nl +:+ "You: ") ;;;
  match stdin with
  | [] => raise EOFError
  | line :: rest =>
      fl <- loop_body s tools agent line ;;
      match fl with
      | Break => ret tt
      | Continue => repl s tools agent rest
      end
  end.

Definition main (llm : chat_model) (s : session) (stdin : list string) : M unit :=
  tools <- load_mcp_tools s ;;
  agent <- create_graph llm s ;;
  print "Wikipedia MCP agent is ready." ;;;
  print "Type a question or use the following templates:" ;;;
  print "  /prompts                - to list available prompts" ;;;
  print ("  /prompt <name> " +:+ dq +:+ "args" +:+ dq +:+ "   - to run a specific prompt") ;;;
  repl s tools agent stdin.

(** *** Bookkeeping on conversations *)

Definition is_tool_message (m : message) : Prop :=
  match m with ToolMessage _ _ => True | _ => False end.

(** The tool calls requested by the assistant messages of [ms]. *)
Fixpoint requested_calls (ms : list message) : nat :=
  match ms with
  | [] => 0
  | AIMessage _ calls :: rest => length calls + requested_calls rest
  | _ :: rest => requested_calls rest
  end.

(** What one turn appends after the user message: [k] rounds of an
    assistant message asking for tools followed by one tool message per
    call ([n] calls in all), then the assistant's answer. *)
Inductive rounds : list message -> nat -> nat -> Prop :=
| rounds_answer (text : string) :
    rounds [AIMessage text []] 0 0
| rounds_hop (text : string) (calls : list tool_call) (results rest : list message)
    (k n : nat) :
    calls <> [] ->
    length results = length calls ->
    Forall is_tool_message results ->
    rounds rest k n ->
    rounds (AIMessage text calls :: results ++ rest) (S k) (length calls + n).

(** The last thing the turn from [w] to [w'] did was a model call that
    failed with [e]. *)
Definition last_model_call_failed (llm : chat_model) (w w' : world) (e : exn)
  (context : list message) : Prop :=
  exists evs, trace w' = trace w ++ evs ++ [EvModel context]
              /\ llm (trace w ++ evs) context = Raise e.

(** A stretch [evs] of the trace after [t] that does not end on a failed
    model call, and one made of tool calls only. *)
Definition quiet (llm : chat_model) (t evs : list event) : Prop :=
  forall evs' context e,
    evs = evs' ++ [EvModel context] -> llm (t ++ evs') context <> Raise e.

Definition only_tool_calls (evs : list event) : Prop :=
  Forall (fun ev => exists n a, ev = EvCallTool n a) evs.

(** *** The dispatcher as the specification words it *)

Inductive command : Type :=
| CmdExit
| CmdListPrompts
| CmdRunPrompt
| CmdQuestion.

(** [c] is the letter [t] in either case; [t] is a lower-case letter. *)
Definition same_letter (c t : ascii) : bool :=
  Ascii.eqb c t
  || ((nat_of_ascii c + 32 =? nat_of_ascii t)
      && (65 <=? nat_of_ascii c) && (nat_of_ascii c <=? 90))%nat.

Fixpoint matches_ci (u token : string) : bool :=
  match u, token with
  | EmptyString, EmptyString => true
  | String c u', String t token' => same_letter c t && matches_ci u' token'
  | _, _ => false
  end.

Definition is_exit_token (u : string) : bool :=
  matches_ci u "exit" || matches_ci u "quit" || matches_ci u "q".

Definition classify (user_input : string) : command :=
  if is_exit_token user_input then CmdExit
  else if startswith user_input "/prompts" then CmdListPrompts
  else if startswith user_input "/prompt" then CmdRunPrompt
  else CmdQuestion.

End Client.

(** ** The server, [src/mcp_server.py] *)

Module Server.

(** A value stored in a returned dict. *)
Inductive value : Type :=
| VStr (s : string)
| VList (xs : list string).

(** A page object of the [wikipedia] package: [title] and [url] are set
    when the page is loaded, the other attributes are fetched on
    access. *)
Record WikipediaPage := {
  title : string;
  url : string;
  summary : result string;
  sections : result (list string);
  section : string -> result (option string)
}.

(** The [wikipedia] package as the server uses it. *)
Record wikipedia := {
  search : string -> result (list string);
  page : string -> result WikipediaPage
}.

Definition rbind {A B} (r : result A) (k : A -> result B) : result B :=
  match r with
  | Ok a => k a
  | Raise e => Raise e
  end.

Notation "x <-- r ;; k" := (rbind r (fun x => k))
  (at level 100, r at next level, right associativity).

Definition error_dict (msg : string) : gmap string value :=
  {[ "error" := VStr msg ]}.

(** [', '.join(e.options[:5])] *)
Definition ambiguous (options : list string) : string :=
  "Ambiguous topic. Try one of these: " +:+ join ", " (take 5 options).

Definition no_page : string := "No Wikipedia page could be loaded for this query.".

Definition fetch_wikipedia_info (wiki : wikipedia) (query : string)
  : result (gmap string value) :=
  match
    (search_results <-- search wiki query ;;
     match search_results with
     | [] => Ok (error_dict "No results found for your query.")
     | best_match :: _ =>
         pg <-- page wiki best_match ;;
         s <-- summary pg ;;
         Ok (<[ "title" := VStr (title pg) ]>
               (<[ "summary" := VStr s ]>
                  (<[ "url" := VStr (url pg) ]> ∅)))
     end)
  with
  | Raise (DisambiguationError _ options) => Ok (error_dict (ambiguous options))
  | Raise (PageError _) => Ok (error_dict no_page)
  | r => r
  end.

Definition list_wikipedia_sections (wiki : wikipedia) (topic : string)
  : result (gmap string value) :=
  match
    (pg <-- page wiki topic ;;
     secs <-- sections pg ;;
     Ok ({[ "sections" := VList secs ]} : gmap string value))
  with
  | Raise (DisambiguationError _ options) => Ok (error_dict (ambiguous options))
  | Raise (PageError _) => Ok (error_dict no_page)
  | Raise e => Ok (error_dict (str_exn e))
  | r => r
  end.

Definition get_section_content (wiki : wikipedia) (topic section_title : string)
  : result (gmap string value) :=
  match
    (pg <-- page wiki topic ;;
     text <-- section pg section_title ;;
     match text with
     | Some (String c rest) => Ok ({[ "content" := VStr (String c rest) ]} : gmap string value)
     | _ => Ok (error_dict ("Section '" +:+ section_title
                              +:+ "' not found in article '" +:+ topic +:+ "'."))
     end)
  with
  | Raise (DisambiguationError _ options) => Ok (error_dict (ambiguous options))
  | Raise (PageError _) => Ok (error_dict no_page)
  | Raise e => Ok (error_dict (str_exn e))
  | r => r
  end.

(** *** How the tools are reached

    A registered tool is called with the request's argument dict as
    keyword arguments: every declared parameter (none has a default
    here) must be present, a key that is no parameter is dropped. *)
Record server_tool := {
  st_name : string;
  st_params : list string;
  st_run : wikipedia -> list string -> result (gmap string value)
}.

Inductive call_outcome : Type :=
| Executed (r : result (gmap string value))
| MissingArgument (param : string)
| UnknownTool.

Fixpoint bind_arguments (params : list string) (args : gmap string string)
  : string + list string :=
  match params with
  | [] => inr []
  | p :: rest =>
      match args !! p with
      | None => inl p
      | Some v =>
          match bind_arguments rest args with
          | inl missing => inl missing
          | inr vs => inr (v :: vs)
          end
      end
  end.

Definition call_server_tool (t : server_tool) (wiki : wikipedia)
  (args : gmap string string) : call_outcome :=
  match bind_arguments (st_params t) args with
  | inl missing => MissingArgument missing
  | inr vs => Executed (st_run t wiki vs)
  end.

(** The three [@mcp.tool()] functions with their signatures. *)
Definition registry : list server_tool :=
  [ {| st_name := "fetch_wikipedia_info"; st_params := ["query"];
       st_run := fun wiki vs => fetch_wikipedia_info wiki (nth 0 vs EmptyString) |};
    {| st_name := "list_wikipedia_sections"; st_params := ["topic"];
       st_run := fun wiki vs => list_wikipedia_sections wiki (nth 0 vs EmptyString) |};
    {| st_name := "get_section_content"; st_params := ["topic"; "section_title"];
       st_run := fun wiki vs =>
                   get_section_content wiki (nth 0 vs EmptyString) (nth 1 vs EmptyString) |} ].

Definition server_call_tool (wiki : wikipedia) (tool : string)
  (args : gmap string string) : call_outcome :=
  match find (fun t => String.eqb (st_name t) tool) registry with
  | None => UnknownTool
  | Some t => call_server_tool t wiki args
  end.

End Server.

(** ** Concrete backends, used to run the definitions *)

Module Examples.
Import Client Server.

Definition w0 : world := {| trace := []; stdout := []; checkpoints := ∅ |}.

Definition no_prompts : result (option ListPromptsResult) :=
  Ok (Some {| prompts := [] |}).

(** One tool whose every call fails, as in the repository's test of a
    failing tool. *)
Definition failing_session : session := {|
  s_list_tools := fun _ =>
    Ok {| tools := [ {| tool_name := "error_tool";
                        tool_description := Some "Error tool" |} ] |};
  s_call_tool := fun _ _ _ => Raise (Exception "Tool execution failed");
  s_list_prompts := fun _ => no_prompts;
  s_get_prompt := fun _ _ _ => Raise (Exception "Execution failed");
  s_address := fun _ => "7f3a5c0d2e40"
|}.

Definition error_tool : Tool := make_tool failing_session
  {| tool_name := "error_tool"; tool_description := Some "Error tool" |}.

(** A model that asks for the failing tool once and then answers. *)
Definition error_call : tool_call :=
  {| tc_name := "error_tool"; tc_arg := "test input"; tc_id := "call_1" |}.

Definition ask_error_tool : chat_model := fun _ context =>
  match last context with
  | Some (ToolMessage _ _) => Ok ("The tool did not answer.", [])
  | _ => Ok (EmptyString, [error_call])
  end.



(** A reachable backend with the lookup tool and one prompt of two
    arguments, as in the repository's tests. *)
Definition two_arg_prompt : Prompt :=
  {| prompt_name := "test_prompt";
     arguments := Some [ {| arg_name := "arg1" |}; {| arg_name := "arg2" |} ] |}.

Definition wiki_session : session := {|
  s_list_tools := fun _ =>
    Ok {| tools := [ {| tool_name := "fetch_wikipedia_info";
                        tool_description := Some "Search Wikipedia" |} ] |};
  s_call_tool := fun _ _ _ =>
    Ok {| content := [ TextContent "title: Marie Curie" ] |};
  s_list_prompts := fun _ => Ok (Some {| prompts := [ two_arg_prompt ] |});
  s_get_prompt := fun _ _ _ => Ok {| messages := [ TextContent "rendered" ] |};
  s_address := fun _ => "7f3a5c0d2e40"
|}.

(** A catalog whose one prompt declares no argument list: its
    [arguments] attribute is [None]. *)
Definition bare_prompt : Prompt :=
  {| prompt_name := "test_prompt"; arguments := None |}.

Definition bare_prompt_session : session := {|
  s_list_tools := fun _ => Ok {| tools := [] |};
  s_call_tool := fun _ _ _ => Ok {| content := [] |};
  s_list_prompts := fun _ => Ok (Some {| prompts := [ bare_prompt ] |});
  s_get_prompt := fun _ _ _ => Ok {| messages := [ TextContent "rendered" ] |};
  s_address := fun _ => "7f3a5c0d2e40"
|}.

(** A backend that is reachable but has no prompt, and one that cannot
    be reached. *)
Definition empty_catalog_session : session := {|
  s_list_tools := fun _ => Ok {| tools := [] |};
  s_call_tool := fun _ _ _ => Ok {| content := [] |};
  s_list_prompts := fun _ => no_prompts;
  s_get_prompt := fun _ _ _ => Raise (Exception "Execution failed");
  s_address := fun _ => "7f3a5c0d2e40"
|}.

Definition unreachable_session : session := {|
  s_list_tools := fun _ => Ok {| tools := [] |};
  s_call_tool := fun _ _ _ => Raise (Exception "Connection closed");
  s_list_prompts := fun _ => Raise (Exception "Connection closed");
  s_get_prompt := fun _ _ _ => Raise (Exception "Connection closed");
  s_address := fun _ => "7f3a5c0d2e40"
|}.

(** A model that asks for one lookup and then answers. *)
Definition lookup_then_answer : chat_model := fun _ context =>
  match last context with
  | Some (ToolMessage _ _) => Ok ("Marie Curie was a physicist and chemist.", [])
  | _ => Ok (EmptyString,
             [ {| tc_name := "fetch_wikipedia_info"; tc_arg := "Marie Curie";
                  tc_id := "call_1" |} ])
  end.

(** A model whose every call is refused, and one whose first call is
    refused and that answers from then on. *)
Definition unauthenticated : chat_model := fun _ _ =>
  Raise (Exception "Incorrect API key provided").

Definition refused_once : chat_model := fun tr _ =>
  match tr with
  | [] => Raise (Exception "Incorrect API key provided")
  | _ => Ok ("Marie Curie was a physicist and chemist.", [])
  end.

Definition wiki_tools : list Tool :=
  [ make_tool wiki_session
      {| tool_name := "fetch_wikipedia_info";
         tool_description := Some "Search Wikipedia" |} ].

Definition wiki_graph (llm : chat_model) : graph :=
  {| graph_tools := wiki_tools; graph_llm := llm;
     recursion_limit := default_recursion_limit |}.

(** The first end-to-end scenario: one question, one lookup, one
    answer. *)
Definition question : string := "Tell me about Marie Curie".

Definition lookup_turn : list message :=
  [ HumanMessage question;
    AIMessage EmptyString
      [ {| tc_name := "fetch_wikipedia_info"; tc_arg := "Marie Curie";
           tc_id := "call_1" |} ];
    ToolMessage (coroutine_repr "7f3a5c0d2e40") "call_1";
    AIMessage "Marie Curie was a physicist and chemist." [] ].

Definition after_lookup_turn : world :=
  (graph_ainvoke (wiki_graph lookup_then_answer) [HumanMessage question]
     thread_id w0).1.

(** The fourth scenario: the model call is refused. *)
Definition after_refused_turn : world :=
  (graph_ainvoke (wiki_graph unauthenticated) [HumanMessage question]
     thread_id w0).1.

(** A [wikipedia] package whose requests fail, as in the repository's
    tests of a generic error. *)
Definition offline : wikipedia := {|
  search := fun _ => Raise (Exception "Network error");
  page := fun _ => Raise (Exception "Network error")
|}.

End Examples.

(** ** Vocabulary of the further properties *)

Module More.
Import Client Server Examples.

(** Strings of white space only, and strings without white space, in
    the sense of [str.isspace]. *)
Fixpoint allspace (s : string) : bool :=
  match s with
  | EmptyString => true
  | String c rest => isspace c && allspace rest
  end.

Fixpoint nospace (s : string) : bool :=
  match s with
  | EmptyString => true
  | String c rest => negb (isspace c) && nospace rest
  end.

(** A character that shlex takes as part of a word. *)
Definition plain_char (c : ascii) : bool :=
  negb (shlex_whitespace c || shlex_quote c || shlex_escape c).

Fixpoint plain (s : string) : bool :=
  match s with
  | EmptyString => true
  | String c rest => plain_char c && plain rest
  end.

(** Text that can stand between double quotes as it is. *)
Fixpoint quotable (s : string) : bool :=
  match s with
  | EmptyString => true
  | String c rest =>
      negb (Ascii.eqb c (ascii_of_nat 34)) && negb (shlex_escape c) && quotable rest
  end.

(** [ "a1" "a2" ...], each argument after a space. *)
Fixpoint quoted_args (args : list string) : string :=
  match args with
  | [] => EmptyString
  | a :: rest => " " +:+ dq +:+ a +:+ dq +:+ quoted_args rest
  end.

(** The lines the listing shows for one prompt. *)
Definition prompt_lines (p : Prompt) : list string :=
  (nl +:+ "Prompt: " +:+ prompt_name p)
    :: match arguments p with
       | Some (a :: rest) => map (fun arg => "  - " +:+ arg_name arg) (a :: rest)
       | _ => ["  - No arguments required."]
       end.

(** The fixed lines of [list_prompts] and [handle_prompt]. *)
Definition listing_header : string := nl +:+ "Available Prompts and Argument Structure:".
Definition listing_usage : string :=
  nl +:+ "Use: /prompt <prompt_name> " +:+ dq +:+ "arg1" +:+ dq
     +:+ " " +:+ dq +:+ "arg2" +:+ dq +:+ " ...".
Definition usage_line : string := "Usage: /prompt <name> " +:+ dq +:+ "args>" +:+ dq.

(** A catalog with one prompt that takes no argument and cannot be
    rendered, as in the repository's test of a failing prompt. *)
Definition failing_prompt_session : session := {|
  s_list_tools := fun _ => Ok {| tools := [] |};
  s_call_tool := fun _ _ _ => Ok {| content := [] |};
  s_list_prompts := fun _ =>
    Ok (Some {| prompts := [ {| prompt_name := "test_prompt"; arguments := Some [] |} ] |});
  s_get_prompt := fun _ _ _ => Raise (Exception "Execution failed");
  s_address := fun _ => "7f3a5c0d2e40"
|}.

(** The world after [lines] were printed. *)
Definition with_stdout (w : world) (lines : list string) : world :=
  {| trace := trace w; stdout := stdout w ++ lines; checkpoints := checkpoints w |}.

(** What [main] prints before the first prompt. *)
Definition banner : list string :=
  [ "Wikipedia MCP agent is ready.";
    "Type a question or use the following templates:";
    "  /prompts                - to list available prompts";
    "  /prompt <name> " +:+ dq +:+ "args" +:+ dq +:+ "   - to run a specific prompt" ].

(** What a turn may do to the outside: call the model on a context that
    starts with the system prompt, or call a tool with the one argument
    [query]. *)
Definition turn_event (ev : event) : Prop :=
  match ev with
  | EvModel (SystemMessage p :: _) => p = system_prompt
  | EvCallTool _ args => exists input, args = {[ "query" := input ]}
  | _ => False
  end.

(** The repository's tests: an ambiguous title, and a page with
    sections. *)
Definition python_options : list string :=
  ["Python (programming language)"; "Python (mythology)"; "Python (snake)";
   "Monty Python"; "Python (film)"; "Python (missile)"].

Definition ambiguous_wiki : wikipedia := {|
  search := fun _ => Ok ["Python"];
  page := fun _ => Raise (DisambiguationError "Python" python_options)
|}.

Definition history_page : WikipediaPage := {|
  title := "Python (programming language)";
  url := "https://en.wikipedia.org/wiki/Python_(programming_language)";
  summary := Ok "Python is a high-level programming language.";
  sections := Ok ["Introduction"; "History"];
  section := fun t => if String.eqb t "History"
                      then Ok (Some "This is the history section content.")
                      else Ok None
|}.

Definition online : wikipedia := {|
  search := fun _ => Ok ["Python (programming language)"; "Python"];
  page := fun _ => Ok history_page
|}.

(** Replace the search results by their first entry. *)
Definition first_result_only (wiki : wikipedia) : wikipedia := {|
  search := fun q => match search wiki q with
                     | Ok (best :: _) => Ok [best]
                     | r => r
                     end;
  page := page wiki
|}.

End More.

(** * Properties *)

Import Client Server Examples.

(** ** Running the definitions on concrete inputs *)

Example shlex_single_quotes :
  shlex_split "/prompt test_prompt 'only_one_arg'"
  = Ok ["/prompt"; "test_prompt"; "only_one_arg"].
Proof. reflexivity. Qed.

Example shlex_double_quotes_keep_spaces :
  shlex_split ("/prompt p " +:+ dq +:+ "Marie Curie" +:+ dq +:+ " x\ y")
  = Ok ["/prompt"; "p"; "Marie Curie"; "x y"].
Proof. reflexivity. Qed.

Example shlex_open_quote :
  shlex_split ("/prompt p " +:+ dq +:+ "Marie Curie")
  = Raise (ValueError "No closing quotation").
Proof. reflexivity. Qed.

Example strip_then_lower : lower (strip "  QuIt ") = "quit".
Proof. reflexivity. Qed.

Example classify_examples :
  map classify ["EXIT"; "q"; "/prompts"; "/promptsx"; "/prompt p"; "exit now"; "quiet"]
  = [CmdExit; CmdExit; CmdListPrompts; CmdListPrompts; CmdRunPrompt;
     CmdQuestion; CmdQuestion].
Proof. reflexivity. Qed.

(** The second end-to-end scenario, from [main]: the listing command on
    an empty catalog prints the one line, and the session goes on. *)
Example listing_an_empty_catalog :
  exists w',
    main lookup_then_answer empty_catalog_session ["/prompts"; "exit"] w0 = (w', Ok tt)
    /\ drop 4 (stdout w')
       = [nl +:+ "You: "; "No prompts found on the server."; nl +:+ "You: "].
Proof. eexists. split; vm_compute; reflexivity. Qed.

(** ** Strings *)

Lemma append_cons a (x y : string) : String a x +:+ y = String a (x +:+ y).
Proof. reflexivity. Qed.

Lemma append_empty_r (x : string) : x +:+ EmptyString = x.
Proof. induction x as [|a x IH]; [done|]. by rewrite append_cons, IH. Qed.

Lemma append_assoc (x y z : string) : (x +:+ y) +:+ z = x +:+ (y +:+ z).
Proof. induction x as [|a x IH]; [done|]. by rewrite !append_cons, IH. Qed.

Lemma contains_mid pre x post : contains (pre +:+ x +:+ post) x.
Proof. by exists pre, post. Qed.

Lemma contains_end pre x : contains (pre +:+ x) x.
Proof. exists pre, EmptyString. by rewrite append_empty_r. Qed.

(** ** Running effectful code *)

Lemma bind_run {A B} (m : M A) (k : A -> M B) w :
  bind m k w = match m w with
               | (w', Ok a) => k a w'
               | (w', Raise e) => (w', Raise e)
               end.
Proof. reflexivity. Qed.

Lemma get_state_run th w : get_state th w = (w, Ok (conversation w th)).
Proof. reflexivity. Qed.

Lemma conversation_set th st w : conversation (set_checkpoint th st w) th = st.
Proof. unfold conversation, set_checkpoint; simpl. by rewrite lookup_insert_eq. Qed.

Lemma session_list_prompts_run s w :
  session_list_prompts s w = (add_event EvListPrompts w, s_list_prompts s (trace w)).
Proof. reflexivity. Qed.

(** ** The tool registry *)

Lemma build_tools_app s acc ts :
  build_tools s acc ts = acc ++ map (make_tool s) ts.
Proof.
  revert acc. induction ts as [|t ts IH]; intros acc; simpl.
  - by rewrite app_nil_r.
  - rewrite IH. by rewrite <- app_assoc.
Qed.

Lemma load_mcp_tools_run s w :
  load_mcp_tools s w =
    match s_list_tools s (trace w) with
    | Ok resp => (add_event EvListTools w, Ok (map (make_tool s) (tools resp)))
    | Raise e => (add_event EvListTools w, Raise e)
    end.
Proof.
  unfold load_mcp_tools, list_tools, bind, get_trace, emit, lift, ret.
  destruct (s_list_tools s (trace w)) as [resp|e]; [|done].
  by rewrite build_tools_app.
Qed.

(** What [tool_func] does in every case: one backend call, and a text. *)
Lemma tool_func_run s n input w :
  tool_func s n input w =
    (add_event (EvCallTool n {[ "query" := input ]}) w,
     Ok match s_call_tool s (trace w) n {[ "query" := input ]} with
        | Ok r =>
            match content r with
            | [] => "No result"
            | TextContent t :: _ => t
            | ImageContent _ :: _ =>
                "Error calling tool " +:+ n +:+ ": "
                  +:+ "'ImageContent' object has no attribute 'text'"
            end
        | Raise e => "Error calling tool " +:+ n +:+ ": " +:+ str_exn e
        end).
Proof.
  unfold tool_func, try_except, call_tool, bind, get_trace, emit, lift, ret.
  destruct (s_call_tool s (trace w) n _) as [r|e]; [|done].
  destruct (content r) as [|[t|d] rest]; done.
Qed.

Lemma tool_func_world s n input w :
  (tool_func s n input w).1 = add_event (EvCallTool n {[ "query" := input ]}) w.
Proof. by rewrite tool_func_run. Qed.

Lemma made_tool_in s ts d :
  d ∈ map (make_tool s) ts ->
  exists t, t ∈ ts /\ d = make_tool s t.
Proof.
  intros Hin. apply list_elem_of_In, in_map_iff in Hin as (t & <- & Hin).
  exists t. split; [by apply list_elem_of_In|done].
Qed.

(** X25: when the backend raises on a call made for a loaded tool, the
    tool's function, awaited, does not raise: it returns, as its
    ordinary result, the text [Error calling tool <name>: <cause>],
    which contains the tool's name and the exception's message. *)
Theorem tool_failure_becomes_text (s : session) (w0 w1 : world)
  (registry : list Tool) (t : Tool) (input : string) (w : world) (e : exn) :
  load_mcp_tools s w0 = (w1, Ok registry) ->
  t ∈ registry ->
  s_call_tool s (trace w) (name t) {[ "query" := input ]} = Raise e ->
  let text := "Error calling tool " +:+ name t +:+ ": " +:+ str_exn e in
  let w' := add_event (EvCallTool (name t) {[ "query" := input ]}) w in
  func t input w = (w', Ok text)
  /\ contains text (name t)
  /\ contains text (str_exn e).
Proof.
  intros Hload Hin Hraise text w'.
  rewrite load_mcp_tools_run in Hload.
  destruct (s_list_tools s (trace w0)) as [resp|e0]; [|done].
  injection Hload as _ <-.
  apply made_tool_in in Hin as (t0 & _ & ->). simpl in *.
  split; [unfold create_tool_func; by rewrite tool_func_run, Hraise|].
  split; [apply contains_mid|].
  subst text. rewrite <- !append_assoc. apply contains_end.
Qed.

(** A loaded tool's function returns a text in every case. *)
Lemma tool_func_never_raises s n input w :
  exists text, tool_func s n input w
               = (add_event (EvCallTool n {[ "query" := input ]}) w, Ok text).
Proof. rewrite tool_func_run. eauto. Qed.

(** The repository's test of a failing tool, through the theorem. *)
Lemma tool_failure_becomes_text_witness :
  func error_tool "test input" w0
  = (add_event (EvCallTool "error_tool" {[ "query" := "test input" ]}) w0,
     Ok "Error calling tool error_tool: Tool execution failed").
Proof.
  exact (proj1 (tool_failure_becomes_text failing_session w0
                  (add_event EvListTools w0) [error_tool] error_tool
                  "test input" w0 (Exception "Tool execution failed")
                  eq_refl (list_elem_of_here _ _) eq_refl)).
Defined.

(** A request that carries only [query] cannot fill a parameter of any
    other name. *)
Lemma bind_arguments_missing params (input : string) p :
  p ∈ params -> p <> "query" ->
  exists missing, missing <> "query"
    /\ bind_arguments params {[ "query" := input ]} = inl missing.
Proof.
  induction params as [|p0 params IH]; intros Hin Hne.
  - by apply elem_of_nil in Hin.
  - simpl. destruct (decide (p0 = "query")) as [->|Hp0].
    + rewrite lookup_singleton_eq.
      apply elem_of_cons in Hin as [->|Hin]; [done|].
      destruct (IH Hin Hne) as (m & Hm & ->). by exists m.
    + rewrite lookup_singleton_ne by done. by exists p0.
Qed.

(** C8: the function of every loaded tool calls the backend with the
    one-entry dict [{query: input}], whatever the tool declares; a server
    tool that declares a parameter of another name is therefore never
    run with it (the call stops at the missing argument), which is the
    case of [list_wikipedia_sections] and [get_section_content], while
    [fetch_wikipedia_info] runs. *)
Theorem tool_func_binds_query_only (s : session) (w0 w1 : world)
  (registry : list Tool) (d : Tool) (input : string) (w : world) :
  load_mcp_tools s w0 = (w1, Ok registry) ->
  d ∈ registry ->
  let sent : gmap string string := {[ "query" := input ]} in
  (func d input w).1 = add_event (EvCallTool (name d) sent) w
  /\ (forall (t : server_tool) (wiki : wikipedia) (p : string),
        p ∈ st_params t -> p <> "query" ->
        exists missing, missing <> "query"
          /\ call_server_tool t wiki sent = MissingArgument missing)
  /\ (forall wiki,
        server_call_tool wiki "list_wikipedia_sections" sent = MissingArgument "topic"
        /\ server_call_tool wiki "get_section_content" sent = MissingArgument "topic"
        /\ server_call_tool wiki "fetch_wikipedia_info" sent
           = Executed (fetch_wikipedia_info wiki input)).
Proof.
  intros Hload Hin sent. subst sent.
  rewrite load_mcp_tools_run in Hload.
  destruct (s_list_tools s (trace w0)) as [resp|e0]; [|done].
  injection Hload as _ <-.
  apply made_tool_in in Hin as (t0 & _ & ->). simpl.
  split; [apply tool_func_world|]. split.
  - intros t wiki p Hp Hne. unfold call_server_tool.
    destruct (bind_arguments_missing (st_params t) input p Hp Hne) as (m & Hm & ->).
    by exists m.
  - intros wiki. unfold server_call_tool, call_server_tool; simpl.
    rewrite lookup_singleton_eq. rewrite lookup_singleton_ne by done. done.
Qed.

Lemma tool_func_binds_query_only_witness :
  (func error_tool "Python" w0).1
  = add_event (EvCallTool "error_tool" {[ "query" := "Python" ]}) w0
  /\ server_call_tool offline "list_wikipedia_sections" {[ "query" := "Python" ]}
     = MissingArgument "topic".
Proof.
  destruct (tool_func_binds_query_only failing_session w0
              (add_event EvListTools w0) [error_tool] error_tool "Python" w0
              eq_refl (list_elem_of_here _ _)) as (Hsent & _ & Hserver).
  split; [exact Hsent|exact (proj1 (Hserver offline))].
Defined.




(** ** The graph *)

Lemma chat_node_run llm st w :
  chat_node llm st w =
    let context := SystemMessage system_prompt :: st in
    (add_event (EvModel context) w,
     match llm (trace w) context with
     | Ok r => Ok [AIMessage r.1 r.2]
     | Raise e => Raise e
     end).
Proof.
  unfold chat_node, chat_llm_invoke, bind, get_trace, emit, lift, ret.
  by destruct (llm (trace w) _).
Qed.

Lemma tools_condition_snoc st text calls :
  tools_condition (st ++ [AIMessage text calls]) =
    match calls with [] => false | _ => true end.
Proof. unfold tools_condition. rewrite last_snoc. by destruct calls. Qed.

(** The tool node leaves the world as it is: no tool function runs. *)
Lemma run_tool_call_run tools tc w :
  run_tool_call tools tc w =
    (w, Ok (ToolMessage
              match lookup_tool tools (tc_name tc) with
              | Some t => unawaited t (trace w)
              | None => "Error: " +:+ tc_name tc +:+ " is not a valid tool, try one of ["
                          +:+ join ", " (map name tools) +:+ "]."
              end (tc_id tc))).
Proof.
  unfold run_tool_call. by destruct (lookup_tool tools (tc_name tc)).
Qed.

(** The tool node never raises and answers every call. *)
Lemma run_tool_call_total tools tc w :
  exists w' text, run_tool_call tools tc w = (w', Ok (ToolMessage text (tc_id tc))).
Proof. rewrite run_tool_call_run. eauto. Qed.

Lemma run_tool_calls_total tools calls w :
  exists w' results,
    run_tool_calls tools calls w = (w', Ok results)
    /\ length results = length calls
    /\ Forall is_tool_message results.
Proof.
  revert w. induction calls as [|tc calls IH]; intros w; simpl.
  - exists w, []. by repeat split.
  - unfold bind.
    destruct (run_tool_call_total tools tc w) as (w1 & text & ->).
    destruct (IH w1) as (w2 & results & -> & Hlen & Hall).
    exists w2, (ToolMessage text (tc_id tc) :: results).
    unfold ret. split; [done|]. split; [simpl; lia|].
    by constructor.
Qed.

Lemma rounds_length new k n : rounds new k n -> length new = n + k + 1.
Proof.
  induction 1 as [text|text calls results rest k n Hne Hlen Hall Hr IH]; simpl.
  - done.
  - rewrite length_app, Hlen, IH. lia.
Qed.

Lemma requested_calls_app ms1 ms2 :
  requested_calls (ms1 ++ ms2) = requested_calls ms1 + requested_calls ms2.
Proof.
  induction ms1 as [|[t|t|t calls|t i] ms1 IH]; simpl; lia.
Qed.

Lemma requested_calls_results results :
  Forall is_tool_message results -> requested_calls results = 0.
Proof. induction 1 as [|[| | |] ms Hm _ IH]; simpl; done. Qed.

Lemma rounds_requested new k n : rounds new k n -> requested_calls new = n.
Proof.
  induction 1 as [text|text calls results rest k n Hne Hlen Hall Hr IH]; simpl.
  - done.
  - rewrite requested_calls_app, IH, requested_calls_results by done. lia.
Qed.

(** What a run of the graph returns when it returns: from the chat node,
    the stored conversation followed by whole rounds and an answer; from
    the tool node, first the results of the pending calls. *)
Lemma run_graph_ok g th steps :
  forall nd w w' final,
    run_graph g th steps nd w = (w', Ok final) ->
    conversation w' th = final /\
    match nd with
    | ChatNode =>
        exists new k n, final = conversation w th ++ new /\ rounds new k n
    | ToolNode =>
        forall text calls,
          last (conversation w th) = Some (AIMessage text calls) ->
          exists results new k n,
            length results = length calls
            /\ Forall is_tool_message results
            /\ final = conversation w th ++ results ++ new
            /\ rounds new k n
    end.
Proof.
  induction steps as [|steps IH]; intros nd w w' final Hrun; [done|].
  simpl in Hrun. rewrite bind_run, get_state_run in Hrun.
  set (st := conversation w th) in *.
  destruct nd.
  - rewrite bind_run, chat_node_run in Hrun. cbv zeta in Hrun.
    destruct (graph_llm g (trace w) (SystemMessage system_prompt :: st))
      as [[text calls]|e] eqn:Hllm; [|done].
    rewrite bind_run in Hrun. unfold put_state, add_messages in Hrun.
    simpl in Hrun.
    rewrite tools_condition_snoc in Hrun.
    destruct calls as [|tc calls].
    + injection Hrun as <- <-. split; [apply conversation_set|].
      exists [AIMessage text []], 0, 0. split; [done|constructor].
    + apply IH in Hrun as [Hconv Htool]. split; [done|].
      rewrite conversation_set in Htool.
      destruct (Htool text (tc :: calls)) as (results & new & k & n & Hl & Hall & -> & Hr).
      { by rewrite last_snoc. }
      exists (AIMessage text (tc :: calls) :: results ++ new), (S k),
        (length (tc :: calls) + n).
      split; [by rewrite <- app_assoc|].
      by constructor.
  - unfold tool_node in Hrun.
    destruct (last st) as [[t|t|text calls|t i]|] eqn:Hlast; try done.
    rewrite bind_run in Hrun.
    destruct (run_tool_calls_total (graph_tools g) calls w)
      as (w1 & results & Hcalls & Hlen & Hall).
    rewrite Hcalls, bind_run in Hrun. unfold put_state in Hrun.
    apply IH in Hrun as [Hconv (new & k & n & Hfinal & Hr)]. split; [done|].
    rewrite conversation_set in Hfinal. unfold add_messages in Hfinal.
    intros text' calls' [= <- <-].
    exists results, new, k, n. by rewrite app_assoc.
Qed.

(** The agent of [create_graph] is the compiled graph over the loaded
    tools. *)
Lemma create_graph_run llm s w :
  create_graph llm s w =
    match s_list_tools s (trace w) with
    | Ok resp =>
        (add_event EvListTools w,
         Ok (compile {| graph_tools := map (make_tool s) (tools resp);
                        graph_llm := llm;
                        recursion_limit := default_recursion_limit |}))
    | Raise e => (add_event EvListTools w, Raise e)
    end.
Proof.
  unfold create_graph. rewrite bind_run, load_mcp_tools_run.
  by destruct (s_list_tools s (trace w)).
Qed.

(** C2, as the code has it: a turn that completes leaves the stored
    conversation followed by the user message, then [k] rounds (an
    assistant message that requests tools and one tool message per
    requested call, [n] calls in all), then one final assistant message
    without tool calls; its length is the initial length plus
    [1 + n + k + 1]. *)
Theorem turn_appends_question_rounds_and_answer (g : graph) (u : string)
  (thread : string) (w w' : world) (final : list message) :
  graph_ainvoke g [HumanMessage u] thread w = (w', Ok final) ->
  exists new k n,
    final = conversation w thread ++ HumanMessage u :: new
    /\ rounds new k n
    /\ requested_calls new = n
    /\ conversation w' thread = final
    /\ length final = length (conversation w thread) + 1 + n + k + 1.
Proof.
  intros Hrun. unfold graph_ainvoke in Hrun.
  rewrite bind_run, get_state_run, bind_run in Hrun.
  unfold put_state, add_messages in Hrun.
  apply run_graph_ok in Hrun as [Hconv (new & k & n & Hfinal & Hr)].
  rewrite conversation_set in Hfinal.
  exists new, k, n. rewrite <- app_assoc in Hfinal. simpl in Hfinal.
  split; [done|]. split; [done|]. split; [by eapply rounds_requested|].
  split; [done|].
  rewrite Hfinal, length_app. simpl. rewrite (rounds_length _ _ _ Hr). lia.
Qed.

Lemma turn_appends_question_rounds_and_answer_witness :
  exists new k n,
    lookup_turn = conversation w0 thread_id ++ HumanMessage question :: new
    /\ rounds new k n
    /\ requested_calls new = n
    /\ conversation after_lookup_turn thread_id = lookup_turn
    /\ length lookup_turn = length (conversation w0 thread_id) + 1 + n + k + 1.
Proof.
  apply (turn_appends_question_rounds_and_answer (wiki_graph lookup_then_answer)
           question thread_id w0 after_lookup_turn lookup_turn).
  vm_compute. reflexivity.
Defined.

(** C2 as stated fails: in the turn of the first scenario one tool call
    is requested, and the conversation grows from nothing to four
    messages, not to [0 + 1 + 1 + 1]. *)
Lemma one_lookup_turn_has_four_messages :
  graph_ainvoke (wiki_graph lookup_then_answer) [HumanMessage question]
    thread_id w0 = (after_lookup_turn, Ok lookup_turn)
  /\ length (conversation w0 thread_id) = 0
  /\ requested_calls lookup_turn = 1
  /\ length lookup_turn = 4
  /\ length lookup_turn
     <> length (conversation w0 thread_id) + 1 + requested_calls lookup_turn + 1.
Proof.
  split; [vm_compute; reflexivity|].
  repeat split; vm_compute; lia.
Qed.

(** *** A turn with a failing tool *)

(** Looking up the name of a loaded tool finds a tool made for that
    name. *)
Lemma lookup_made_tool s ts n :
  In n (map tool_name ts) ->
  exists t0, lookup_tool (map (make_tool s) ts) n = Some (make_tool s t0)
             /\ tool_name t0 = n.
Proof.
  intros Hin. unfold lookup_tool.
  destruct (find _ _) as [t|] eqn:Hf.
  - apply find_some in Hf as [Ht Hn].
    apply in_rev, in_map_iff in Ht as (t0 & <- & _).
    exists t0. split; [done|]. by apply String.eqb_eq in Hn.
  - apply in_map_iff in Hin as (t0 & <- & Hin).
    eapply find_none in Hf; [|apply in_rev; rewrite rev_involutive;
      apply in_map_iff; exists t0; split; [reflexivity|exact Hin]].
    simpl in Hf. by rewrite String.eqb_refl in Hf.
Qed.

Lemma coroutine_repr_not_error address n cause :
  coroutine_repr address <> "Error calling tool " +:+ n +:+ ": " +:+ cause.
Proof. done. Qed.

(** C1 fails on the code.  Take a loaded tool whose backend call raises
    [e], and a turn in which the model asks for that tool and then
    answers.  Awaited, the tool's function would return the text
    [Error calling tool <name>: <cause>].  The turn does complete, but
    the tool node does not await the function: the backend is not
    called at all (the trace of the turn holds the two model calls and
    nothing else), and the tool message that the conversation and the
    model get is the text of a coroutine object, not the error text. *)
Theorem failing_tool_text_is_lost_in_a_turn (s : session) (ts : list McpTool)
  (llm : chat_model) (limit : nat) (u : string) (w : world) (tc : tool_call)
  (e : exn) (text answer : string) :
  let g := {| graph_tools := map (make_tool s) ts; graph_llm := llm;
              recursion_limit := limit |} in
  let asked := conversation w thread_id ++ [HumanMessage u] in
  let context := SystemMessage system_prompt :: asked in
  let seen := coroutine_repr (s_address s (trace w ++ [EvModel context])) in
  let round := [AIMessage text [tc]; ToolMessage seen (tc_id tc)] in
  let error_text := "Error calling tool " +:+ tc_name tc +:+ ": " +:+ str_exn e in
  3 <= limit ->
  In (tc_name tc) (map tool_name ts) ->
  (forall tr, s_call_tool s tr (tc_name tc) {[ "query" := tc_arg tc ]} = Raise e) ->
  llm (trace w) context = Ok (text, [tc]) ->
  llm (trace w ++ [EvModel context]) (context ++ round) = Ok (answer, []) ->
  (exists t, lookup_tool (graph_tools g) (tc_name tc) = Some t
     /\ forall w1, func t (tc_arg tc) w1
          = (add_event (EvCallTool (tc_name tc) {[ "query" := tc_arg tc ]}) w1,
             Ok error_text))
  /\ (exists w',
        graph_ainvoke g [HumanMessage u] thread_id w
        = (w', Ok (asked ++ round ++ [AIMessage answer []]))
        /\ trace w' = trace w ++ [EvModel context; EvModel (context ++ round)]
        /\ conversation w' thread_id = asked ++ round ++ [AIMessage answer []])
  /\ seen <> error_text.
Proof.
  intros g asked context seen round error_text Hlim Hin Hfail H1 H2.
  destruct (lookup_made_tool s ts _ Hin) as (t0 & Hl & Hn).
  split; [|split; [|apply coroutine_repr_not_error]].
  - exists (make_tool s t0). split; [exact Hl|]. intros w1. simpl.
    unfold create_tool_func. rewrite Hn, tool_func_run, Hfail. done.
  - unfold graph_ainvoke. rewrite bind_run, get_state_run, bind_run.
    unfold put_state, add_messages. fold asked.
    destruct limit as [|[|[|n]]]; [lia..|]. clear Hlim.
    change (recursion_limit g) with (S (S (S n))).
    cbn [run_graph]. rewrite bind_run, get_state_run, conversation_set.
    rewrite bind_run, chat_node_run. cbv zeta. cbn [trace set_checkpoint].
    fold context. change (graph_llm g) with llm. rewrite H1. cbn [fst snd].
    rewrite bind_run. unfold put_state, add_messages.
    rewrite tools_condition_snoc.
    rewrite bind_run, get_state_run, conversation_set.
    unfold tool_node. rewrite last_snoc. cbn [run_tool_calls].
    rewrite bind_run. rewrite bind_run, run_tool_call_run.
    change (graph_tools g) with (map (make_tool s) ts). rewrite Hl.
    unfold ret at 1. rewrite bind_run. unfold ret at 1.
    rewrite bind_run. unfold put_state, add_messages.
    rewrite bind_run, get_state_run, conversation_set.
    rewrite bind_run, chat_node_run. cbv zeta.
    cbn [trace set_checkpoint add_event unawaited make_tool].
    rewrite <- app_assoc. cbn [app]. fold context.
    fold seen.
    change (SystemMessage system_prompt
              :: asked ++ AIMessage text [tc] :: [ToolMessage seen (tc_id tc)])
      with (context ++ round).
    rewrite H2. cbn [fst snd]. rewrite bind_run. unfold put_state, add_messages.
    rewrite tools_condition_snoc.
    unfold ret. fold round. rewrite <- (app_assoc asked round).
    eexists. split; [reflexivity|].
    split; [cbn; by rewrite <- app_assoc|]. by rewrite conversation_set.
Qed.

(** The repository's failing tool in a turn: the model is shown the
    coroutine's text, and the backend was never called. *)
Lemma failing_tool_text_is_lost_in_a_turn_witness :
  let turn :=
    graph_ainvoke
      {| graph_tools := [error_tool]; graph_llm := ask_error_tool;
         recursion_limit := default_recursion_limit |}
      [HumanMessage "Run the tool"] thread_id w0 in
  turn.2 = Ok [ HumanMessage "Run the tool";
                AIMessage EmptyString [error_call];
                ToolMessage (coroutine_repr "7f3a5c0d2e40") "call_1";
                AIMessage "The tool did not answer." [] ]
  /\ trace turn.1
     = [ EvModel [SystemMessage system_prompt; HumanMessage "Run the tool"];
         EvModel [ SystemMessage system_prompt; HumanMessage "Run the tool";
                   AIMessage EmptyString [error_call];
                   ToolMessage (coroutine_repr "7f3a5c0d2e40") "call_1" ] ]
  /\ coroutine_repr "7f3a5c0d2e40"
     <> "Error calling tool error_tool: Tool execution failed".
Proof.
  destruct (failing_tool_text_is_lost_in_a_turn failing_session
              [ {| tool_name := "error_tool"; tool_description := Some "Error tool" |} ]
              ask_error_tool default_recursion_limit "Run the tool" w0 error_call
              (Exception "Tool execution failed") EmptyString
              "The tool did not answer.")
    as (_ & (w' & Hrun & Htrace & _) & Hne).
  - unfold default_recursion_limit. lia.
  - simpl. by left.
  - reflexivity.
  - reflexivity.
  - reflexivity.
  - cbv zeta. change [error_tool] with
      (map (make_tool failing_session)
         [ {| tool_name := "error_tool"; tool_description := Some "Error tool" |} ]).
    rewrite Hrun. split; [reflexivity|]. split; [exact Htrace|exact Hne].
Defined.

(** *** A turn that ends on a failed model call *)

Lemma quiet_nil llm t : quiet llm t [].
Proof. intros evs' c e H. by destruct evs'. Qed.

Lemma quiet_app llm t pre evs :
  quiet llm t pre -> quiet llm (t ++ pre) evs -> quiet llm t (pre ++ evs).
Proof.
  intros Hpre Hevs evs' c e Heq.
  destruct evs as [|x evs0 _] using rev_ind.
  - rewrite app_nil_r in Heq. by eapply Hpre.
  - rewrite app_assoc in Heq. apply app_inj_tail in Heq as [<- ->].
    rewrite app_assoc. by eapply Hevs.
Qed.

Lemma quiet_tool_calls llm t evs : only_tool_calls evs -> quiet llm t evs.
Proof.
  intros Hall evs' c e ->. apply Forall_app in Hall as [_ Hlast].
  apply Forall_inv in Hlast as (n & a & Heq). done.
Qed.

Lemma quiet_answered llm t c r : llm t c = Ok r -> quiet llm t [EvModel c].
Proof.
  intros Hok evs' c' e Heq.
  change [EvModel c] with ([] ++ [EvModel c]) in Heq.
  apply app_inj_tail in Heq as [<- [= <-]]. rewrite app_nil_r. congruence.
Qed.

#[local] Hint Resolve quiet_nil quiet_tool_calls quiet_answered : core.

Section LoadedTools.
(** The graph of [create_graph]: its tools are the loaded ones. *)
Variables (s : session) (ts : list McpTool) (llm : chat_model) (limit : nat).

Let g : graph :=
  {| graph_tools := map (make_tool s) ts; graph_llm := llm;
     recursion_limit := limit |}.

Lemma run_tool_call_trace tc w w' m :
  run_tool_call (map (make_tool s) ts) tc w = (w', Ok m) ->
  exists evs, trace w' = trace w ++ evs /\ only_tool_calls evs.
Proof.
  rewrite run_tool_call_run. intros [= <- _].
  exists []. split; [by rewrite app_nil_r|constructor].
Qed.

Lemma run_tool_calls_trace calls w w' ms :
  run_tool_calls (map (make_tool s) ts) calls w = (w', Ok ms) ->
  exists evs, trace w' = trace w ++ evs /\ only_tool_calls evs.
Proof.
  revert w w' ms. induction calls as [|tc calls IH]; intros w w' ms; simpl.
  - intros [= <- _]. exists []. split; [by rewrite app_nil_r|constructor].
  - rewrite bind_run.
    destruct (run_tool_call_total (map (make_tool s) ts) tc w) as (w1 & text & H1).
    rewrite H1, bind_run.
    apply run_tool_call_trace in H1 as (evs1 & Ht1 & Ho1).
    destruct (run_tool_calls (map (make_tool s) ts) calls w1) as [w2 [ms2|e]] eqn:H2;
      [|done].
    apply IH in H2 as (evs2 & Ht2 & Ho2).
    intros [= <- _]. exists (evs1 ++ evs2).
    split; [by rewrite Ht2, Ht1, app_assoc|by apply Forall_app].
Qed.

(** How a run of the graph can end: on a model call that failed, with
    the conversation as that call saw it, or otherwise. *)
Lemma run_graph_outcome th steps :
  forall nd w w' r,
    run_graph g th steps nd w = (w', r) ->
    (exists e evs rest,
        r = Raise e
        /\ trace w' = trace w ++ evs
                        ++ [EvModel (SystemMessage system_prompt :: conversation w' th)]
        /\ llm (trace w ++ evs) (SystemMessage system_prompt :: conversation w' th)
           = Raise e
        /\ conversation w' th = conversation w th ++ rest)
    \/ (exists evs, trace w' = trace w ++ evs /\ quiet llm (trace w) evs).
Proof.
  induction steps as [|steps IH]; intros nd w w' r Hrun.
  { injection Hrun as <- _. right. exists []. by rewrite app_nil_r. }
  simpl in Hrun. rewrite bind_run, get_state_run in Hrun.
  set (st := conversation w th) in *.
  destruct nd.
  - rewrite bind_run, chat_node_run in Hrun. cbv zeta in Hrun.
    destruct (llm (trace w) (SystemMessage system_prompt :: st))
      as [[text calls]|e] eqn:Hllm.
    + rewrite bind_run in Hrun. unfold put_state, add_messages in Hrun.
      simpl in Hrun. rewrite tools_condition_snoc in Hrun.
      destruct calls as [|tc calls].
      * injection Hrun as <- _. right. eexists. split; [reflexivity|]. eauto.
      * apply IH in Hrun as [(e & evs & rest & -> & Ht & Hl & Hc)|(evs & Ht & Hq)].
        -- left. exists e, (EvModel (SystemMessage system_prompt :: st) :: evs),
             (AIMessage text (tc :: calls) :: rest).
           simpl in Ht, Hl. rewrite <- app_assoc in Ht, Hl. simpl in Ht, Hl.
           rewrite conversation_set in Hc. rewrite <- app_assoc in Hc.
           done.
        -- right. exists (EvModel (SystemMessage system_prompt :: st) :: evs).
           simpl in Ht. rewrite <- app_assoc in Ht. split; [done|].
           apply (quiet_app llm (trace w)
                    [EvModel (SystemMessage system_prompt :: st)]); eauto.
    + injection Hrun as <- <-. left. exists e, [], [].
      simpl. rewrite !app_nil_r. done.
  - unfold tool_node in Hrun.
    destruct (last st) as [[t|t|text calls|t i]|] eqn:Hlast;
      try (injection Hrun as <- _; right; exists []; by rewrite app_nil_r).
    rewrite bind_run in Hrun.
    destruct (run_tool_calls_total (map (make_tool s) ts) calls w)
      as (w1 & results & Hcalls & Hlen & Hall).
    simpl in Hrun. rewrite Hcalls, bind_run in Hrun. unfold put_state in Hrun.
    apply run_tool_calls_trace in Hcalls as (tevs & Htt & Hto).
    apply IH in Hrun as [(e & evs & rest & -> & Ht & Hl & Hc)|(evs & Ht & Hq)].
    + left. exists e, (tevs ++ evs), (results ++ rest).
      simpl in Ht, Hl. rewrite Htt in Ht, Hl. rewrite <- !app_assoc in *.
      rewrite conversation_set in Hc. unfold add_messages in Hc.
      rewrite <- app_assoc in Hc. done.
    + right. exists (tevs ++ evs). simpl in Ht, Hq. rewrite Htt in Ht, Hq.
      rewrite <- app_assoc in Ht. split; [done|].
      apply quiet_app; eauto.
Qed.
End LoadedTools.

Lemma ask_run agent u w :
  ask agent u w =
    match ainvoke agent [HumanMessage u] thread_id w with
    | (w', Ok response) =>
        match last response with
        | Some m => (add_line ("AI: " +:+ message_text m) w', Ok tt)
        | None => (add_line ("Error: list index out of range") w', Ok tt)
        end
    | (w', Raise e) => (add_line ("Error: " +:+ str_exn e) w', Ok tt)
    end.
Proof.
  unfold ask, try_except, bind, print, raise.
  destruct (ainvoke agent _ thread_id w) as [w' [response|e]]; [|done].
  by destruct (last response).
Qed.

(** The question branch of the loop never raises. *)
Lemma ask_never_raises agent u w : exists w', ask agent u w = (w', Ok tt).
Proof.
  rewrite ask_run. destruct (ainvoke agent _ thread_id w) as [w' [response|e]].
  - destruct (last response); eauto.
  - eauto.
Qed.

(** The tool node changes nothing in the world, and a run of the graph
    only adds to the stored conversation, however it ends. *)
Lemma run_tool_calls_run tools calls w :
  exists results, run_tool_calls tools calls w = (w, Ok results).
Proof.
  induction calls as [|tc calls [results IH]]; simpl; [by exists []|].
  rewrite bind_run, run_tool_call_run, bind_run, IH. unfold ret. eauto.
Qed.

Lemma run_graph_grows g th steps :
  forall nd w w' r,
    run_graph g th steps nd w = (w', r) ->
    exists rest, conversation w' th = conversation w th ++ rest.
Proof.
  induction steps as [|steps IH]; intros nd w w' r Hrun.
  { injection Hrun as <- _. exists []. by rewrite app_nil_r. }
  simpl in Hrun. rewrite bind_run, get_state_run in Hrun.
  destruct nd.
  - rewrite bind_run, chat_node_run in Hrun. cbv zeta in Hrun.
    destruct (graph_llm g _ _) as [[text calls]|e].
    + rewrite bind_run in Hrun. unfold put_state, add_messages in Hrun.
      simpl in Hrun.
      destruct (tools_condition _).
      * apply IH in Hrun as (rest & Hc). rewrite conversation_set in Hc.
        rewrite <- app_assoc in Hc. eauto.
      * injection Hrun as <- _. rewrite conversation_set. eauto.
    + injection Hrun as <- _. exists []. by rewrite app_nil_r.
  - unfold tool_node in Hrun.
    destruct (last _) as [[t|t|text calls|t i]|] eqn:Hlast;
      try (injection Hrun as <- _; exists []; by rewrite app_nil_r).
    rewrite bind_run in Hrun.
    destruct (run_tool_calls_run (graph_tools g) calls w) as (results & Hcalls).
    rewrite Hcalls, bind_run in Hrun. unfold put_state, add_messages in Hrun.
    apply IH in Hrun as (rest & Hc). rewrite conversation_set in Hc.
    rewrite <- app_assoc in Hc. eauto.
Qed.

Lemma graph_ainvoke_grows g input th w w' r :
  graph_ainvoke g input th w = (w', r) ->
  exists rest, conversation w' th = conversation w th ++ input ++ rest.
Proof.
  unfold graph_ainvoke. rewrite bind_run, get_state_run, bind_run.
  unfold put_state, add_messages. intros Hrun.
  apply run_graph_grows in Hrun as (rest & Hc).
  rewrite conversation_set, <- app_assoc in Hc. eauto.
Qed.

(** C4, as the code has it: in a turn whose last act is a model call
    that fails with [e], the agent raises [e]; the stored conversation
    is exactly the one the failed call was given (nothing was appended
    after it), and it is the earlier conversation followed by the user
    message and what the turn had completed before; [main] prints one
    error line and goes on.  The user message that remains is not
    reused: asking the same question again, whatever that turn's
    outcome, stores the user message once more after it. *)
Theorem failed_model_call_leaves_conversation (s : session) (ts : list McpTool)
  (llm : chat_model) (limit : nat) (u : string) (w w' : world)
  (r : result (list message)) (e : exn) (context : list message) :
  let g := {| graph_tools := map (make_tool s) ts; graph_llm := llm;
              recursion_limit := limit |} in
  graph_ainvoke g [HumanMessage u] thread_id w = (w', r) ->
  last_model_call_failed llm w w' e context ->
  r = Raise e
  /\ context = SystemMessage system_prompt :: conversation w' thread_id
  /\ (exists rest,
        conversation w' thread_id
        = conversation w thread_id ++ HumanMessage u :: rest)
  /\ ask (compile g) u w = (add_line ("Error: " +:+ str_exn e) w', Ok tt)
  /\ (forall w2 r2,
        graph_ainvoke g [HumanMessage u] thread_id w' = (w2, r2) ->
        exists rest2,
          conversation w2 thread_id
          = conversation w' thread_id ++ HumanMessage u :: rest2).
Proof.
  intros g Hrun (fevs & Hft & Hfl).
  assert (Hrun' := Hrun). unfold graph_ainvoke in Hrun.
  rewrite bind_run, get_state_run, bind_run in Hrun.
  unfold put_state, add_messages in Hrun.
  apply run_graph_outcome in Hrun
    as [(e' & evs & rest & -> & Ht & Hl & Hc)|(evs & Ht & Hq)]; simpl in *.
  - rewrite Hft, !app_assoc in Ht. apply app_inj_tail in Ht as [Hpre [= ->]].
    apply app_inv_head in Hpre as ->. rewrite Hfl in Hl. injection Hl as ->.
    rewrite conversation_set, <- app_assoc in Hc.
    split; [done|]. split; [done|]. split; [by exists rest|].
    split; [rewrite ask_run; simpl; by rewrite Hrun'|].
    intros w2 r2 H2. by apply graph_ainvoke_grows in H2.
  - exfalso. rewrite Hft in Ht. apply app_inv_head in Ht as <-.
    by eapply Hq.
Qed.

(** The fourth scenario through the theorem: the first model call is
    refused, the conversation holds the question once, and asking again
    adds it again. *)
Lemma failed_model_call_leaves_conversation_witness :
  conversation after_refused_turn thread_id = [HumanMessage question]
  /\ ask (compile (wiki_graph unauthenticated)) question w0
     = (add_line "Error: Incorrect API key provided" after_refused_turn, Ok tt)
  /\ exists rest2,
       conversation
         (graph_ainvoke (wiki_graph unauthenticated) [HumanMessage question]
            thread_id after_refused_turn).1 thread_id
       = conversation after_refused_turn thread_id ++ HumanMessage question :: rest2.
Proof.
  destruct (failed_model_call_leaves_conversation wiki_session
              [ {| tool_name := "fetch_wikipedia_info";
                   tool_description := Some "Search Wikipedia" |} ]
              unauthenticated default_recursion_limit question
              w0 after_refused_turn
              (Raise (Exception "Incorrect API key provided"))
              (Exception "Incorrect API key provided")
              [SystemMessage system_prompt; HumanMessage question])
    as (_ & Hctx & _ & Hask & Hagain).
  - vm_compute. reflexivity.
  - exists []. split; vm_compute; reflexivity.
  - split; [exact (eq_sym (f_equal (drop 1) Hctx))|]. split; [exact Hask|].
    apply (Hagain _ (graph_ainvoke (wiki_graph unauthenticated)
                       [HumanMessage question] thread_id after_refused_turn).2).
    by destruct (graph_ainvoke _ _ _ _).
Defined.

(** Where C4 as worded fails: the model refuses the first call and
    answers from then on.  After the refused turn the conversation
    holds the question; asking it again succeeds, and the model is
    then given the question twice and the conversation keeps both. *)
Lemma asking_again_stores_the_question_twice :
  let g := wiki_graph refused_once in
  let failed := graph_ainvoke g [HumanMessage question] thread_id w0 in
  let again := graph_ainvoke g [HumanMessage question] thread_id failed.1 in
  failed.2 = Raise (Exception "Incorrect API key provided")
  /\ conversation failed.1 thread_id = [HumanMessage question]
  /\ again.2 = Ok [HumanMessage question; HumanMessage question;
                   AIMessage "Marie Curie was a physicist and chemist." []]
  /\ last (trace again.1)
     = Some (EvModel [SystemMessage system_prompt; HumanMessage question;
                      HumanMessage question]).
Proof. repeat split; vm_compute; reflexivity. Qed.

(** ** Prompt commands *)

(** X26: a run-prompt command that names a prompt of the catalog with a
    number of arguments other than the prompt's list declares prints
    [Expected <count> arguments: <names>] and returns; all it did was
    list the prompts: no prompt was rendered, the agent (any agent) was
    not invoked and no conversation changed. *)
Theorem wrong_argument_count_is_reported (s : session) (tools : list Tool)
  (agent : Agent) (command : string) (w : world)
  (cmd prompt : string) (args : list string)
  (defs : ListPromptsResult) (found : Prompt) (margs : list PromptArgument) :
  shlex_split (strip command) = Ok (cmd :: prompt :: args) ->
  s_list_prompts s (trace w) = Ok (Some defs) ->
  find (fun p => String.eqb (prompt_name p) prompt) (prompts defs) = Some found ->
  arguments found = Some margs ->
  length args <> length margs ->
  let report := "Expected " +:+ pretty (length margs) +:+ " arguments: "
                  +:+ join ", " (map arg_name margs) in
  let w' := add_line report (add_event EvListPrompts w) in
  handle_prompt s tools command agent w = (w', Ok tt)
  /\ trace w' = trace w ++ [EvListPrompts]
  /\ checkpoints w' = checkpoints w.
Proof.
  intros Hparts Hdefs Hfind Hargs Hlen report w'.
  split; [|done].
  unfold handle_prompt. rewrite bind_run. unfold lift. rewrite Hparts. simpl.
  unfold try_except. rewrite bind_run, session_list_prompts_run, Hdefs, Hfind, Hargs.
  apply Nat.eqb_neq in Hlen. by rewrite drop_0, Hlen.
Qed.

(** The repository's test of a wrong argument count, and the third
    scenario's output, through the theorem. *)
Lemma wrong_argument_count_is_reported_witness :
  handle_prompt wiki_session [] "/prompt test_prompt 'only_one_arg'"
    (compile (wiki_graph lookup_then_answer)) w0
  = (add_line "Expected 2 arguments: arg1, arg2" (add_event EvListPrompts w0), Ok tt).
Proof.
  apply (wrong_argument_count_is_reported wiki_session []
           (compile (wiki_graph lookup_then_answer))
           "/prompt test_prompt 'only_one_arg'" w0
           "/prompt" "test_prompt" ["only_one_arg"]
           {| prompts := [two_arg_prompt] |} two_arg_prompt
           [ {| arg_name := "arg1" |}; {| arg_name := "arg2" |} ]);
    [reflexivity|reflexivity|reflexivity|reflexivity|simpl; lia].
Defined.

(** C5 fails on the code for a prompt of the catalog whose [arguments]
    attribute is [None].  Whatever the number of arguments supplied, the
    command takes [len] of [None] and prints
    [Prompt invocation failed: object of type 'NoneType' has no len()],
    not a report of the expected count; no prompt is rendered and the
    agent is not invoked.  The listing treats the same prompt as one
    that requires no argument. *)
Theorem missing_argument_list_is_not_counted (s : session) (tools : list Tool)
  (agent : Agent) (command : string) (w : world)
  (cmd prompt : string) (args : list string)
  (defs : ListPromptsResult) (found : Prompt) :
  shlex_split (strip command) = Ok (cmd :: prompt :: args) ->
  s_list_prompts s (trace w) = Ok (Some defs) ->
  find (fun p => String.eqb (prompt_name p) prompt) (prompts defs) = Some found ->
  arguments found = None ->
  handle_prompt s tools command agent w
  = (add_line "Prompt invocation failed: object of type 'NoneType' has no len()"
       (add_event EvListPrompts w), Ok tt)
  /\ print_prompt found w
     = (add_line "  - No arguments required."
          (add_line (nl +:+ "Prompt: " +:+ prompt_name found) w), Ok tt).
Proof.
  intros Hparts Hdefs Hfind Hargs. split.
  - unfold handle_prompt. rewrite bind_run. unfold lift. rewrite Hparts. simpl.
    unfold try_except.
    by rewrite bind_run, session_list_prompts_run, Hdefs, Hfind, Hargs.
  - unfold print_prompt. rewrite bind_run, Hargs. reflexivity.
Qed.

(** One argument for a prompt that declares no argument list. *)
Lemma missing_argument_list_is_not_counted_witness :
  handle_prompt bare_prompt_session [] "/prompt test_prompt 'only_one_arg'"
    (compile (wiki_graph lookup_then_answer)) w0
  = (add_line "Prompt invocation failed: object of type 'NoneType' has no len()"
       (add_event EvListPrompts w0), Ok tt).
Proof.
  exact (proj1 (missing_argument_list_is_not_counted bare_prompt_session []
           (compile (wiki_graph lookup_then_answer))
           "/prompt test_prompt 'only_one_arg'" w0
           "/prompt" "test_prompt" ["only_one_arg"]
           {| prompts := [bare_prompt] |} bare_prompt
           eq_refl eq_refl eq_refl eq_refl)).
Defined.

(** Printing the catalog only prints. *)
Lemma for_each_print_prompt ps w :
  exists lines,
    for_each ps print_prompt w
    = ({| trace := trace w; stdout := stdout w ++ lines;
          checkpoints := checkpoints w |}, Ok tt).
Proof.
  revert w. induction ps as [|p ps IH]; intros w; simpl.
  - exists []. rewrite app_nil_r. by destruct w.
  - rewrite bind_run.
    assert (exists lines, print_prompt p w
              = ({| trace := trace w; stdout := stdout w ++ lines;
                    checkpoints := checkpoints w |}, Ok tt)) as (l1 & ->).
    { unfold print_prompt. rewrite bind_run. unfold print at 1.
      destruct (arguments p) as [[|a rest]|].
      - eexists [_; _]. unfold print, add_line; simpl. by rewrite <- app_assoc.
      - assert (forall (xs : list PromptArgument) w0, exists lines,
                  for_each xs (fun arg => print ("  - " +:+ arg_name arg)) w0
                  = ({| trace := trace w0; stdout := stdout w0 ++ lines;
                        checkpoints := checkpoints w0 |}, Ok tt)) as Hargs.
        { induction xs as [|x xs IHx]; intros w0; simpl.
          - exists []. rewrite app_nil_r. by destruct w0.
          - rewrite bind_run. unfold print at 1.
            destruct (IHx (add_line ("  - " +:+ arg_name x) w0)) as (l & ->).
            eexists (_ :: l). simpl. by rewrite <- app_assoc. }
        destruct (Hargs (a :: rest) (add_line (nl +:+ "Prompt: " +:+ prompt_name p) w))
          as (l & ->).
        eexists (_ :: l). simpl. by rewrite <- app_assoc.
      - eexists [_; _]. unfold print, add_line; simpl. by rewrite <- app_assoc. }
    destruct (IH {| trace := trace w; stdout := stdout w ++ l1;
                    checkpoints := checkpoints w |}) as (l2 & ->).
    exists (l1 ++ l2). simpl. by rewrite <- app_assoc.
Qed.

(** C6, as the code has it: [list_prompts] asks the session once.  If
    the session raises, the exception goes on to the caller and nothing
    is printed.  If the session answers with no prompt (or with nothing),
    the one line [No prompts found on the server.] is printed and the
    function returns normally, with the value [None].  Otherwise the
    catalog is printed, and the value is [None] again. *)
Theorem list_prompts_outcomes (s : session) (w : world) :
  let w1 := add_event EvListPrompts w in
  match s_list_prompts s (trace w) with
  | Raise e => list_prompts s w = (w1, Raise e)
  | Ok None | Ok (Some {| prompts := [] |}) =>
      list_prompts s w = (add_line "No prompts found on the server." w1, Ok None)
  | Ok (Some {| prompts := p :: ps |}) =>
      exists lines,
        list_prompts s w
        = ({| trace := trace w1;
              stdout := stdout w ++ (nl +:+ "Available Prompts and Argument Structure:")
                                 :: lines;
              checkpoints := checkpoints w |}, Ok None)
  end.
Proof.
  intros w1. subst w1. unfold list_prompts.
  rewrite bind_run, session_list_prompts_run.
  destruct (s_list_prompts s (trace w)) as [[[[|p ps]]|]|e]; try done.
  rewrite bind_run. unfold print at 1. rewrite bind_run.
  destruct (for_each_print_prompt (p :: ps)
              (add_line (nl +:+ "Available Prompts and Argument Structure:")
                 (add_event EvListPrompts w)))
    as (lines & ->).
  rewrite bind_run. unfold print, ret, add_line. simpl.
  eexists (lines ++ [_]). by rewrite <- !app_assoc.
Qed.

(** C6 as stated fails on the returned value: on a reachable catalog
    without prompts [list_prompts] prints the line and returns [None],
    which is not the empty list; on an unreachable one it raises. *)
Lemma empty_catalog_returns_none :
  list_prompts empty_catalog_session w0
  = (add_line "No prompts found on the server." (add_event EvListPrompts w0), Ok None)
  /\ (Ok None : result (option (list Prompt))) <> Ok (Some [])
  /\ list_prompts unreachable_session w0
     = (add_event EvListPrompts w0, Raise (Exception "Connection closed")).
Proof. repeat split; done. Qed.

(** ** The dispatcher *)

Lemma in_all_ascii c : In c all_ascii.
Proof.
  unfold all_ascii. rewrite <- (ascii_nat_embedding c).
  apply in_map, in_seq. pose proof (nat_ascii_bounded c). lia.
Qed.

Lemma lower_char_table :
  forallb (fun c =>
    forallb (fun t =>
      implb (lower_letter t)
            (Bool.eqb (Ascii.eqb (lower_char c) t) (same_letter c t)))
      all_ascii) all_ascii = true.
Proof. vm_compute. reflexivity. Qed.

(** Lower-casing a character gives the letter [t] exactly when the
    character is [t] in either case. *)
Lemma lower_char_same_letter c t :
  lower_letter t = true -> Ascii.eqb (lower_char c) t = same_letter c t.
Proof.
  intros Ht. pose proof lower_char_table as H.
  rewrite forallb_forall in H. specialize (H c (in_all_ascii c)).
  rewrite forallb_forall in H. specialize (H t (in_all_ascii t)).
  rewrite Ht in H. simpl in H. by apply Bool.eqb_prop in H.
Qed.

Lemma lower_matches_ci u token :
  lower_letters token = true ->
  String.eqb (lower u) token = matches_ci u token.
Proof.
  revert token. induction u as [|c u IH]; intros [|t token] Ht; simpl; try done.
  simpl in Ht. apply andb_prop in Ht as [Ht1 Ht2].
  by rewrite lower_char_same_letter, IH.
Qed.

(** The test of [main], [user_input.lower() in {exit, quit, q}], is the
    case-insensitive match with one of the three tokens. *)
Lemma exit_test u :
  bool_decide (lower u ∈ exit_tokens) = is_exit_token u.
Proof.
  unfold is_exit_token.
  rewrite <- !lower_matches_ci by done.
  apply eq_true_iff_eq. rewrite bool_decide_eq_true. unfold exit_tokens.
  rewrite !orb_true_iff, !String.eqb_eq. set_solver.
Qed.

(** C3 fails on the code at two inputs.  The listing command is not
    inside any [try]: when the catalog cannot be reached the exception
    leaves the loop and [main], and the next line is never read.  The
    split of a run-prompt line happens before the [try] of
    [handle_prompt]: an open quote leaves the loop the same way.  A
    failing question, on the other hand, is caught and the loop goes
    on. *)
Theorem listing_failure_ends_session :
  let agent := compile (wiki_graph unauthenticated) in
  repl unreachable_session [] agent ["/prompts"; question] w0
  = (add_event EvListPrompts (add_line (nl +:+ "You: ") w0),
     Raise (Exception "Connection closed"))
  /\ repl wiki_session [] agent
       ["/prompt test_prompt " +:+ dq +:+ "Marie Curie"; question] w0
     = (add_line (nl +:+ "You: ") w0, Raise (ValueError "No closing quotation"))
  /\ exists w',
       repl wiki_session [] agent [question; "q"] w0 = (w', Ok tt)
       /\ stdout w' = [nl +:+ "You: "; "Error: Incorrect API key provided";
                       nl +:+ "You: "].
Proof.
  split; [|split].
  - vm_compute. reflexivity.
  - vm_compute. reflexivity.
  - eexists. split; vm_compute; reflexivity.
Qed.

(** ** The server *)

(** The part of C10 that holds (X24): no search result, an ambiguous title and
    a missing page each give a dict with the key [error]; a loaded page
    gives a dict with exactly the keys [title], [summary] and [url],
    taken from the page of the first search result. *)
Theorem fetch_wikipedia_info_handled_cases (wiki : wikipedia) (query : string) :
  match search wiki query with
  | Ok [] =>
      fetch_wikipedia_info wiki query
      = Ok {[ "error" := VStr "No results found for your query." ]}
  | Ok (best_match :: _) =>
      match page wiki best_match with
      | Ok pg =>
          match summary pg with
          | Ok text =>
              exists d, fetch_wikipedia_info wiki query = Ok d
                /\ dom d = {[ "title"; "summary"; "url" ]}
                /\ d !! "title" = Some (VStr (title pg))
                /\ d !! "summary" = Some (VStr text)
                /\ d !! "url" = Some (VStr (url pg))
          | Raise _ => True
          end
      | Raise (DisambiguationError _ options) =>
          fetch_wikipedia_info wiki query = Ok {[ "error" := VStr (ambiguous options) ]}
      | Raise (PageError _) =>
          fetch_wikipedia_info wiki query = Ok {[ "error" := VStr no_page ]}
      | Raise _ => True
      end
  | Raise _ => True
  end.
Proof.
  unfold fetch_wikipedia_info, rbind, error_dict.
  destruct (search wiki query) as [[|best_match rest]|e]; [done| |done].
  destruct (page wiki best_match) as [pg|[]]; try done.
  destruct (summary pg) as [text|e]; [|done].
  eexists. split; [reflexivity|].
  split; [|by simplify_map_eq].
  rewrite !dom_insert_L, dom_empty_L. set_solver.
Qed.

(** The two other tools turn every exception into an error dict. *)
Lemma siblings_never_raise wiki topic section_title :
  (exists d, list_wikipedia_sections wiki topic = Ok d)
  /\ (exists d, get_section_content wiki topic section_title = Ok d).
Proof.
  unfold list_wikipedia_sections, get_section_content, rbind. split.
  - destruct (page wiki topic) as [pg|[]]; eauto.
    destruct (sections pg) as [secs|[]]; eauto.
  - destruct (page wiki topic) as [pg|[]]; eauto.
    destruct (section pg section_title) as [[[|c rest]|]|[]]; eauto.
Qed.

(** C10 fails on the code: [fetch_wikipedia_info] has no handler for
    other exceptions, so with the network down it raises, where the two
    other tools return an error dict. *)
Theorem fetch_wikipedia_info_lets_other_errors_out :
  fetch_wikipedia_info offline "Python" = Raise (Exception "Network error")
  /\ list_wikipedia_sections offline "Python"
     = Ok {[ "error" := VStr "Network error" ]}
  /\ get_section_content offline "Python" "History"
     = Ok {[ "error" := VStr "Network error" ]}.
Proof. repeat split. Qed.

(** * Further properties of the sources *)

Import More.

Lemma rev_app_append a b acc :
  String.rev_app (a +:+ b) acc = String.rev_app b (String.rev_app a acc).
Proof.
  revert acc. induction a as [|c a IH]; intros acc; [done|].
  rewrite append_cons. simpl. apply IH.
Qed.

Lemma rev_app_acc a acc : String.rev_app a acc = String.rev a +:+ acc.
Proof.
  unfold String.rev. revert acc. induction a as [|c a IH]; intros acc; [done|].
  simpl. rewrite IH, (IH (String c EmptyString)), append_assoc. done.
Qed.

Lemma rev_cons c s : String.rev (String c s) = String.rev s +:+ String c EmptyString.
Proof. unfold String.rev at 1. simpl. apply rev_app_acc. Qed.

Lemma rev_snoc s c : String.rev (s +:+ String c EmptyString) = String c (String.rev s).
Proof.
  unfold String.rev. rewrite rev_app_append. simpl. done.
Qed.

Lemma lstrip_snoc a c :
  lstrip (a +:+ String c EmptyString) =
    if allspace a then (if isspace c then EmptyString else String c EmptyString)
    else lstrip a +:+ String c EmptyString.
Proof.
  induction a as [|x a IH]; simpl.
  - by destruct (isspace c).
  - destruct (isspace x); simpl; [apply IH|reflexivity].
Qed.

Lemma allspace_rev s : allspace (String.rev s) = allspace s.
Proof.
  induction s as [|c s IH]; [done|].
  rewrite rev_cons. simpl. rewrite <- IH.
  generalize (String.rev s). intros r. induction r as [|x r IHr]; simpl.
  - by rewrite andb_true_r.
  - rewrite IHr. destruct (isspace x), (isspace c); simpl; try done.
Qed.

Lemma lstrip_allspace s : allspace s = true -> lstrip s = EmptyString.
Proof.
  induction s as [|c s IH]; simpl; [done|].
  destruct (isspace c); simpl; [done|done].
Qed.

(** [rstrip] read from the left. *)
Lemma rstrip_cons c s :
  rstrip (String c s) =
    if allspace (String c s) then EmptyString else String c (rstrip s).
Proof.
  unfold rstrip. rewrite rev_cons, lstrip_snoc, allspace_rev. simpl.
  destruct (allspace s) eqn:Hs.
  - rewrite andb_true_r. destruct (isspace c); [done|].
    rewrite lstrip_allspace by by rewrite allspace_rev. done.
  - rewrite andb_false_r. by rewrite rev_snoc.
Qed.

Lemma rstrip_allspace s : allspace s = true -> rstrip s = EmptyString.
Proof. destruct s as [|c s]; [done|]. intros H. by rewrite rstrip_cons, H. Qed.

Lemma allspace_rstrip s : allspace (rstrip s) = allspace s.
Proof.
  induction s as [|c s IH]; [done|].
  rewrite rstrip_cons. destruct (allspace (String c s)) eqn:H; [done|].
  simpl in *. by rewrite IH.
Qed.

Lemma rstrip_rstrip s : rstrip (rstrip s) = rstrip s.
Proof.
  induction s as [|c s IH]; [done|].
  rewrite rstrip_cons. destruct (allspace (String c s)) eqn:H; [done|].
  rewrite rstrip_cons. simpl in *. rewrite allspace_rstrip, H. by rewrite IH.
Qed.

Lemma lstrip_lstrip s : lstrip (lstrip s) = lstrip s.
Proof.
  induction s as [|c s IH]; [done|]. simpl.
  destruct (isspace c) eqn:Hc; [done|]. simpl. by rewrite Hc.
Qed.

Lemma lstrip_head s :
  lstrip s = EmptyString \/ exists c r, lstrip s = String c r /\ isspace c = false.
Proof.
  induction s as [|c s IH]; simpl; [by left|].
  destruct (isspace c) eqn:Hc; [done|]. right. eauto.
Qed.

Lemma lstrip_rstrip_lstrip s : lstrip (rstrip (lstrip s)) = rstrip (lstrip s).
Proof.
  destruct (lstrip_head s) as [->|(c & r & -> & Hc)]; [done|].
  rewrite rstrip_cons. simpl. rewrite Hc. simpl. by rewrite Hc.
Qed.

(** [strip] leaves nothing to strip. *)
Lemma strip_idempotent (s : string) : strip (strip s) = strip s.
Proof.
  unfold strip. by rewrite lstrip_rstrip_lstrip, rstrip_rstrip.
Qed.

Lemma lstrip_pad pad x : allspace pad = true -> lstrip (pad +:+ x) = lstrip x.
Proof.
  induction pad as [|c pad IH]; [done|]. simpl.
  intros [Hc Hp]%andb_prop. rewrite Hc. by apply IH.
Qed.

Lemma allspace_append a b : allspace (a +:+ b) = allspace a && allspace b.
Proof.
  induction a as [|c a IH]; [done|]. simpl. by rewrite IH, andb_assoc.
Qed.

Lemma rstrip_pad u pad : allspace pad = true -> rstrip (u +:+ pad) = rstrip u.
Proof.
  intros Hp. induction u as [|c u IH].
  - simpl. by apply rstrip_allspace.
  - rewrite append_cons, !rstrip_cons, IH. simpl.
    by rewrite allspace_append, Hp, andb_true_r.
Qed.

Lemma strip_fixed u : strip u = u -> lstrip u = u /\ rstrip u = u.
Proof.
  intros H. split.
  - rewrite <- H at 1. unfold strip. rewrite lstrip_rstrip_lstrip. exact H.
  - rewrite <- H at 1. unfold strip. rewrite rstrip_rstrip. exact H.
Qed.

Lemma strip_padded pad1 u pad2 :
  allspace pad1 = true -> allspace pad2 = true -> strip u = u ->
  strip (pad1 +:+ u +:+ pad2) = u.
Proof.
  intros H1 H2 [Hl Hr]%strip_fixed. unfold strip. rewrite lstrip_pad by done.
  destruct u as [|c u].
  - simpl. rewrite lstrip_allspace by done. done.
  - simpl in Hl. destruct (isspace c) eqn:Hc.
    + exfalso. destruct (lstrip_head u) as [He|(x & r & He & Hx)].
      * by rewrite He in Hl.
      * rewrite He in Hl. injection Hl as -> _. congruence.
    + rewrite append_cons. simpl. rewrite Hc. rewrite <- append_cons.
      by rewrite rstrip_pad.
Qed.


Lemma letters_table :
  forallb (fun c =>
    forallb (fun t =>
      implb (lower_letter t && same_letter c t) (negb (isspace c)))
      all_ascii) all_ascii = true.
Proof. vm_compute. reflexivity. Qed.

Lemma same_letter_nospace c t :
  lower_letter t = true -> same_letter c t = true -> isspace c = false.
Proof.
  intros Ht Hs. pose proof letters_table as H.
  rewrite forallb_forall in H. specialize (H c (in_all_ascii c)).
  rewrite forallb_forall in H. specialize (H t (in_all_ascii t)).
  rewrite Ht, Hs in H. simpl in H. by apply negb_true_iff in H.
Qed.

Lemma matches_ci_nospace u token :
  lower_letters token = true -> matches_ci u token = true -> nospace u = true.
Proof.
  revert token. induction u as [|c u IH]; intros [|t token] Ht Hm; simpl in *; try done.
  apply andb_prop in Ht as [Ht1 Ht2]. apply andb_prop in Hm as [Hm1 Hm2].
  rewrite (same_letter_nospace c t) by done. simpl. by eapply IH.
Qed.

Lemma nospace_allspace u : nospace u = true -> u <> EmptyString -> allspace u = false.
Proof.
  destruct u as [|c u]; [done|]. simpl. intros [Hc _]%andb_prop _.
  apply negb_true_iff in Hc. by rewrite Hc.
Qed.

Lemma nospace_strip u : nospace u = true -> strip u = u.
Proof.
  intros H. unfold strip.
  assert (Hl : lstrip u = u).
  { destruct u as [|c u]; [done|]. simpl in *.
    apply andb_prop in H as [Hc _]. apply negb_true_iff in Hc. by rewrite Hc. }
  rewrite Hl. induction u as [|c u IH]; [done|].
  rewrite rstrip_cons. simpl in *. apply andb_prop in H as [Hc Hu].
  apply negb_true_iff in Hc. rewrite Hc. simpl.
  destruct u as [|x u]; [done|]. rewrite IH; [done|done|].
  simpl in *. apply andb_prop in Hu as [Hx _]. apply negb_true_iff in Hx.
  by rewrite Hx.
Qed.

Lemma exit_token_nospace u : is_exit_token u = true -> nospace u = true.
Proof.
  unfold is_exit_token. rewrite !orb_true_iff.
  intros [[H|H]|H]; eapply matches_ci_nospace; try exact H; done.
Qed.

(** X5: an exit token in any case, with any white space around it, ends
    the loop at once: the body breaks without touching the world, and no
    later line is read. *)
Theorem padded_exit_token_ends_loop (s : session) (tools : list Tool)
  (agent : Agent) (pad1 u pad2 : string) (w : world) :
  allspace pad1 = true -> allspace pad2 = true -> is_exit_token u = true ->
  loop_body s tools agent (pad1 +:+ u +:+ pad2) w = (w, Ok Break)
  /\ forall rest,
       repl s tools agent ((pad1 +:+ u +:+ pad2) :: rest) w
       = (add_line (nl +:+ "You: ") w, Ok tt).
Proof.
  intros H1 H2 Hu.
  assert (Hs : strip (pad1 +:+ u +:+ pad2) = u).
  { apply strip_padded; [done|done|]. by apply nospace_strip, exit_token_nospace. }
  assert (Hb : forall w0, loop_body s tools agent (pad1 +:+ u +:+ pad2) w0 = (w0, Ok Break)).
  { intros w0. unfold loop_body. by rewrite Hs, exit_test, Hu. }
  split; [apply Hb|].
  intros rest. simpl repl. rewrite bind_run. unfold print at 1.
  by rewrite bind_run, Hb.
Qed.

Lemma padded_exit_token_ends_loop_witness :
  loop_body wiki_session [] (compile (wiki_graph unauthenticated)) "  QuIt   " w0
  = (w0, Ok Break).
Proof.
  exact (proj1 (padded_exit_token_ends_loop wiki_session []
                  (compile (wiki_graph unauthenticated)) "  " "QuIt" "   " w0
                  eq_refl eq_refl eq_refl)).
Defined.

(** X7: stripping twice is stripping once, so the [command.strip()] of
    [handle_prompt] changes nothing on the line [main] passes, which is
    stripped already. *)
Theorem handle_prompt_strips_once (s : session) (tools : list Tool)
  (agent : Agent) (line : string) :
  strip (strip line) = strip line
  /\ handle_prompt s tools (strip line) agent = handle_prompt s tools line agent.
Proof.
  split; [apply strip_idempotent|].
  unfold handle_prompt. by rewrite strip_idempotent.
Qed.


Lemma push_append tok c rest : push tok c +:+ rest = tok +:+ String c rest.
Proof. unfold push. by rewrite append_assoc. Qed.

Lemma shlex_word p rest tok q out :
  plain p = true ->
  shlex_run (p +:+ rest) LexWord tok q out = shlex_run rest LexWord (tok +:+ p) q out.
Proof.
  revert tok. induction p as [|c p IH]; intros tok Hp.
  - by rewrite append_empty_r.
  - simpl in Hp. apply andb_prop in Hp as [Hc Hp].
    unfold plain_char in Hc. apply negb_true_iff in Hc.
    apply orb_false_iff in Hc as [Hc He]. apply orb_false_iff in Hc as [Hw Hq].
    rewrite append_cons. simpl. rewrite Hw, Hq, He.
    rewrite IH by done. unfold push. by rewrite append_assoc.
Qed.

Lemma shlex_word_start c p rest out :
  plain (String c p) = true ->
  shlex_run (String c p +:+ rest) LexSpace EmptyString false out
  = shlex_run rest LexWord (String c p) false out.
Proof.
  intros Hp. simpl in Hp. apply andb_prop in Hp as [Hc Hp].
  unfold plain_char in Hc. apply negb_true_iff in Hc.
  apply orb_false_iff in Hc as [Hc He]. apply orb_false_iff in Hc as [Hw Hq].
  rewrite append_cons. simpl. rewrite Hw, Hq, He.
  by rewrite shlex_word.
Qed.

Lemma shlex_quoted a rest tok q out :
  quotable a = true ->
  shlex_run (a +:+ dq +:+ rest) (LexQuote (ascii_of_nat 34)) tok q out
  = shlex_run rest LexWord (tok +:+ a) true out.
Proof.
  revert tok q. induction a as [|c a IH]; intros tok q Ha.
  - rewrite append_empty_r. reflexivity.
  - simpl in Ha. apply andb_prop in Ha as [Hc Ha]. apply andb_prop in Hc as [Hc He].
    apply negb_true_iff in Hc, He.
    rewrite append_cons. simpl. rewrite Hc, He. simpl.
    rewrite IH by done. unfold push. by rewrite append_assoc.
Qed.

Lemma shlex_space_after_word rest tok q out :
  emits tok q = true ->
  shlex_run (" " +:+ rest) LexWord tok q out
  = shlex_run rest LexSpace EmptyString false (out ++ [tok]).
Proof. intros Hem. simpl. by rewrite Hem. Qed.

Lemma shlex_quoted_args args tok q out :
  Forall (fun a => quotable a = true) args ->
  emits tok q = true ->
  shlex_run (quoted_args args) LexWord tok q out = Ok (out ++ tok :: args).
Proof.
  intros Hall. revert tok q out.
  induction Hall as [|a args Ha Hall IH]; intros tok q out Hem; simpl.
  - by rewrite Hem.
  - rewrite Hem.
    change (EmptyString +:+ a +:+ dq +:+ quoted_args args)
      with (a +:+ dq +:+ quoted_args args).
    rewrite shlex_quoted by done.
    rewrite IH; [by rewrite <- app_assoc|]. unfold emits. by rewrite orb_true_r.
Qed.

(** X8: the command form the listing advertises,
    [<command> <name> "arg1" "arg2" ...], splits into the command, the
    name and the arguments as typed between the quotes, spaces and empty
    arguments included, when the arguments hold no double quote and no
    backslash. *)
Theorem shlex_split_documented_form (cmd name : string) (args : list string) :
  plain cmd = true -> cmd <> EmptyString ->
  plain name = true -> name <> EmptyString ->
  Forall (fun a => quotable a = true) args ->
  shlex_split (cmd +:+ " " +:+ name +:+ quoted_args args)
  = Ok (cmd :: name :: args).
Proof.
  intros Hc Hcne Hn Hnne Hargs. unfold shlex_split.
  destruct cmd as [|c cmd]; [done|]. destruct name as [|n name]; [done|].
  rewrite shlex_word_start by done.
  rewrite shlex_space_after_word by done.
  rewrite shlex_word_start by done.
  by rewrite shlex_quoted_args.
Qed.

Lemma shlex_split_documented_form_witness :
  shlex_split ("/prompt highlight_sections_prompt"
                 +:+ quoted_args ["Marie Curie"; EmptyString])
  = Ok ["/prompt"; "highlight_sections_prompt"; "Marie Curie"; EmptyString].
Proof.
  apply (shlex_split_documented_form "/prompt" "highlight_sections_prompt"
           ["Marie Curie"; EmptyString]); try done.
  repeat constructor.
Defined.


Lemma with_stdout_nil w : with_stdout w [] = w.
Proof. unfold with_stdout. rewrite app_nil_r. by destruct w. Qed.

Lemma with_stdout_add_line w lines l :
  add_line l (with_stdout w lines) = with_stdout w (lines ++ [l]).
Proof. unfold add_line, with_stdout. simpl. by rewrite app_assoc. Qed.

Lemma with_stdout_app w l1 l2 :
  with_stdout (with_stdout w l1) l2 = with_stdout w (l1 ++ l2).
Proof. unfold with_stdout. simpl. by rewrite app_assoc. Qed.

Lemma for_each_arg_lines (xs : list PromptArgument) w :
  for_each xs (fun arg => print ("  - " +:+ arg_name arg)) w
  = (with_stdout w (map (fun arg => "  - " +:+ arg_name arg) xs), Ok tt).
Proof.
  revert w. induction xs as [|x xs IH]; intros w; simpl.
  - by rewrite with_stdout_nil.
  - rewrite bind_run. unfold print at 1. rewrite IH.
    change (add_line ?l w) with (with_stdout w [l]).
    by rewrite with_stdout_app.
Qed.

Lemma print_prompt_lines p w :
  print_prompt p w = (with_stdout w (prompt_lines p), Ok tt).
Proof.
  unfold print_prompt, prompt_lines. rewrite bind_run. unfold print at 1.
  change (add_line ?l w) with (with_stdout w [l]).
  destruct (arguments p) as [[|a rest]|].
  - unfold print. by rewrite with_stdout_add_line.
  - rewrite for_each_arg_lines. by rewrite with_stdout_app.
  - unfold print. by rewrite with_stdout_add_line.
Qed.

Lemma for_each_prompt_lines ps w :
  for_each ps print_prompt w = (with_stdout w (flat_map prompt_lines ps), Ok tt).
Proof.
  revert w. induction ps as [|p ps IH]; intros w; simpl.
  - by rewrite with_stdout_nil.
  - rewrite bind_run, print_prompt_lines, IH. by rewrite with_stdout_app.
Qed.

(** X15: on a catalog with prompts [list_prompts] prints the header,
    then for each prompt in catalog order its name line followed by one
    line per argument (or the no-arguments line), then the usage line;
    it asks the session once and returns [None]. *)
Theorem list_prompts_prints_catalog (s : session) (w : world)
  (p : Prompt) (ps : list Prompt) :
  s_list_prompts s (trace w) = Ok (Some {| prompts := p :: ps |}) ->
  list_prompts s w
  = (with_stdout (add_event EvListPrompts w)
       (listing_header :: flat_map prompt_lines (p :: ps) ++ [listing_usage]),
     Ok None).
Proof.
  intros H. unfold list_prompts.
  rewrite bind_run, session_list_prompts_run, H.
  rewrite bind_run. unfold print at 1. rewrite bind_run, for_each_prompt_lines.
  generalize (flat_map prompt_lines (p :: ps)). intros lines.
  rewrite bind_run. unfold print, ret.
  unfold with_stdout, add_line, listing_header, listing_usage. simpl.
  by rewrite <- !app_assoc.
Qed.

Lemma list_prompts_prints_catalog_witness :
  stdout (list_prompts wiki_session w0).1
  = [listing_header; nl +:+ "Prompt: test_prompt"; "  - arg1"; "  - arg2"; listing_usage].
Proof.
  rewrite (list_prompts_prints_catalog wiki_session w0 two_arg_prompt [] eq_refl).
  reflexivity.
Defined.

(** X9: a run-prompt line with fewer than two tokens prints the usage
    line and does nothing else: no backend call, no agent. *)
Theorem handle_prompt_usage (s : session) (tools : list Tool) (agent : Agent)
  (command : string) (w : world) (parts : list string) :
  shlex_split (strip command) = Ok parts ->
  length parts < 2 ->
  handle_prompt s tools command agent w = (add_line usage_line w, Ok tt).
Proof.
  intros Hp Hl. unfold handle_prompt. rewrite bind_run. unfold lift. rewrite Hp.
  apply Nat.ltb_lt in Hl. by rewrite Hl.
Qed.

Lemma handle_prompt_usage_witness :
  handle_prompt wiki_session [] "/prompt" (compile (wiki_graph unauthenticated)) w0
  = (add_line usage_line w0, Ok tt).
Proof.
  apply (handle_prompt_usage wiki_session [] (compile (wiki_graph unauthenticated))
           "/prompt" w0 ["/prompt"]); [reflexivity|simpl; lia].
Defined.

(** X10: when no prompt of the catalog has the given name, the command
    prints [Prompt '<name>' not found.] after listing the prompts once;
    nothing is rendered and the agent is not invoked. *)
Theorem handle_prompt_not_found (s : session) (tools : list Tool) (agent : Agent)
  (command : string) (w : world) (cmd prompt : string) (args : list string)
  (defs : ListPromptsResult) :
  shlex_split (strip command) = Ok (cmd :: prompt :: args) ->
  s_list_prompts s (trace w) = Ok (Some defs) ->
  Forall (fun p => prompt_name p <> prompt) (prompts defs) ->
  handle_prompt s tools command agent w
  = (add_line ("Prompt '" +:+ prompt +:+ "' not found.") (add_event EvListPrompts w),
     Ok tt).
Proof.
  intros Hp Hd Hall. unfold handle_prompt. rewrite bind_run. unfold lift.
  rewrite Hp. simpl. unfold try_except.
  rewrite bind_run, session_list_prompts_run, Hd.
  assert (find (fun p => String.eqb (prompt_name p) prompt) (prompts defs) = None) as ->.
  { induction Hall as [|p ps Hp' _ IH]; [done|]. simpl.
    apply String.eqb_neq in Hp'. by rewrite Hp'. }
  done.
Qed.

Lemma handle_prompt_not_found_witness :
  handle_prompt empty_catalog_session [] "/prompt nonexistent"
    (compile (wiki_graph unauthenticated)) w0
  = (add_line "Prompt 'nonexistent' not found." (add_event EvListPrompts w0), Ok tt).
Proof.
  apply (handle_prompt_not_found empty_catalog_session []
           (compile (wiki_graph unauthenticated)) "/prompt nonexistent" w0
           "/prompt" "nonexistent" [] {| prompts := [] |});
    [reflexivity|reflexivity|constructor].
Defined.

Lemma try_except_print_total (body : M unit) (msg : exn -> string) w :
  exists w', try_except body (fun e => print (msg e)) w = (w', Ok tt).
Proof.
  unfold try_except. destruct (body w) as [w' [[]|e]]; [eauto|].
  unfold print. eauto.
Qed.

(** X11: [handle_prompt] raises exactly when [shlex.split] does, and
    then before anything happened; once the line is split, whatever the
    session or the agent raises is caught and the function returns. *)
Theorem handle_prompt_raises_only_on_split (s : session) (tools : list Tool)
  (agent : Agent) (command : string) (w : world) :
  match shlex_split (strip command) with
  | Raise e => handle_prompt s tools command agent w = (w, Raise e)
  | Ok _ => exists w', handle_prompt s tools command agent w = (w', Ok tt)
  end.
Proof.
  unfold handle_prompt. rewrite bind_run. unfold lift.
  destruct (shlex_split (strip command)) as [parts|e]; [|done].
  destruct (length parts <? 2)%nat.
  - unfold print. eauto.
  - apply try_except_print_total.
Qed.

(** The dict comprehension binds by position. *)
Lemma arg_values_fold_other (l : list (PromptArgument * string))
  (d : gmap string string) (k : string) :
  k ∉ map (fun '(arg, _) => arg_name arg) l ->
  fold_left (fun (d : gmap string string) '(arg, val) => <[arg_name arg := val]> d) l d !! k
  = d !! k.
Proof.
  revert d. induction l as [|[a v] l IH]; intros d Hk; simpl; [done|].
  simpl in Hk. apply not_elem_of_cons in Hk as [Hne Hk].
  rewrite IH by done. by rewrite lookup_insert_ne.
Qed.

Lemma zip_names (margs : list PromptArgument) (args : list string) k :
  k ∈ map (fun '(arg, _) => arg_name arg) (zip margs args) ->
  k ∈ map arg_name margs.
Proof.
  revert args. induction margs as [|a margs IH]; intros [|v args]; simpl;
    try (intros H; by apply elem_of_nil in H).
  intros [->|H]%elem_of_cons; [left|right; eauto].
Qed.

(** X14: when the declared argument names are distinct, the dict sent
    to [get_prompt] binds the i-th declared name to the i-th supplied
    value. *)
Theorem arg_values_bind_by_position (margs : list PromptArgument)
  (args : list string) :
  NoDup (map arg_name margs) ->
  forall i a v,
    margs !! i = Some a -> args !! i = Some v ->
    arg_values_of margs args !! arg_name a = Some v.
Proof.
  unfold arg_values_of. generalize (∅ : gmap string string).
  revert args. induction margs as [|a0 margs IH]; intros args d Hnd i a v Ha Hv.
  - done.
  - destruct args as [|v0 args]; [done|]. simpl in *.
    apply NoDup_cons in Hnd as [Hnotin Hnd].
    destruct i as [|i]; simpl in *.
    + injection Ha as ->. injection Hv as ->.
      rewrite arg_values_fold_other.
      * by rewrite lookup_insert_eq.
      * intros Hin. by apply zip_names in Hin.
    + by eapply IH.
Qed.

Lemma arg_values_bind_by_position_witness :
  arg_values_of [ {| arg_name := "arg1" |}; {| arg_name := "arg2" |} ]
    ["Marie Curie"; "Physics"] !! "arg2" = Some "Physics".
Proof.
  apply (arg_values_bind_by_position
           [ {| arg_name := "arg1" |}; {| arg_name := "arg2" |} ]
           ["Marie Curie"; "Physics"]) with (i := 1) (a := {| arg_name := "arg2" |});
    [|reflexivity|reflexivity].
  apply NoDup_cons. split; [|apply NoDup_singleton].
  by intros ?%list_elem_of_singleton.
Defined.

(** X12: when the argument count fits and rendering the prompt raises,
    the command prints [Prompt invocation failed: <cause>]; the prompt was
    requested with the arguments bound by name, and the agent (any agent)
    was not invoked. *)
Theorem handle_prompt_render_failure (s : session) (tools : list Tool)
  (agent : Agent) (command : string) (w : world)
  (cmd prompt : string) (args : list string)
  (defs : ListPromptsResult) (found : Prompt) (margs : list PromptArgument)
  (e : exn) :
  shlex_split (strip command) = Ok (cmd :: prompt :: args) ->
  s_list_prompts s (trace w) = Ok (Some defs) ->
  find (fun p => String.eqb (prompt_name p) prompt) (prompts defs) = Some found ->
  arguments found = Some margs ->
  length args = length margs ->
  s_get_prompt s (trace w ++ [EvListPrompts]) prompt (arg_values_of margs args)
  = Raise e ->
  handle_prompt s tools command agent w
  = (add_line ("Prompt invocation failed: " +:+ str_exn e)
       (add_event (EvGetPrompt prompt (arg_values_of margs args))
          (add_event EvListPrompts w)),
     Ok tt).
Proof.
  intros Hp Hd Hf Ha Hl Hg. unfold handle_prompt. rewrite bind_run. unfold lift.
  rewrite Hp. simpl. unfold try_except.
  rewrite bind_run, session_list_prompts_run, Hd, Hf, Ha, drop_0.
  apply Nat.eqb_eq in Hl. rewrite Hl. simpl.
  rewrite bind_run. unfold get_prompt, bind, get_trace, emit, lift. simpl.
  by rewrite Hg.
Qed.

Lemma handle_prompt_render_failure_witness :
  handle_prompt failing_prompt_session [] "/prompt test_prompt"
    (compile (wiki_graph lookup_then_answer)) w0
  = (add_line "Prompt invocation failed: Execution failed"
       (add_event (EvGetPrompt "test_prompt" ∅) (add_event EvListPrompts w0)),
     Ok tt).
Proof.
  apply (handle_prompt_render_failure failing_prompt_session []
           (compile (wiki_graph lookup_then_answer)) "/prompt test_prompt" w0
           "/prompt" "test_prompt" []
           {| prompts := [ {| prompt_name := "test_prompt"; arguments := Some [] |} ] |}
           {| prompt_name := "test_prompt"; arguments := Some [] |} []
           (Exception "Execution failed")); reflexivity.
Defined.

(** X13: when the argument count fits and the prompt renders to a text,
    that text is sent to the agent as one user message on the thread of
    the plain questions; the command then prints the result header and
    the content of the last message, or the failure line when the agent
    raises. *)
Theorem handle_prompt_runs_rendered_prompt (s : session) (tools : list Tool)
  (agent : Agent) (command : string) (w : world)
  (cmd prompt : string) (args : list string)
  (defs : ListPromptsResult) (found : Prompt) (margs : list PromptArgument)
  (response : GetPromptResult) (text : string) (more : list content_item) :
  shlex_split (strip command) = Ok (cmd :: prompt :: args) ->
  s_list_prompts s (trace w) = Ok (Some defs) ->
  find (fun p => String.eqb (prompt_name p) prompt) (prompts defs) = Some found ->
  arguments found = Some margs ->
  length args = length margs ->
  s_get_prompt s (trace w ++ [EvListPrompts]) prompt (arg_values_of margs args)
  = Ok response ->
  messages response = TextContent text :: more ->
  let w2 := add_event (EvGetPrompt prompt (arg_values_of margs args))
              (add_event EvListPrompts w) in
  handle_prompt s tools command agent w
  = match ainvoke agent [HumanMessage text] thread_id w2 with
    | (w3, Ok final) =>
        let w4 := add_line (nl +:+ "=== Prompt Result ===") w3 in
        match last final with
        | Some m => (add_line (message_text m) w4, Ok tt)
        | None =>
            (add_line "Prompt invocation failed: list index out of range" w4, Ok tt)
        end
    | (w3, Raise e) => (add_line ("Prompt invocation failed: " +:+ str_exn e) w3, Ok tt)
    end.
Proof.
  intros Hp Hd Hf Ha Hl Hg Hm w2. subst w2.
  unfold handle_prompt. rewrite bind_run. unfold lift.
  rewrite Hp. simpl. unfold try_except.
  rewrite bind_run, session_list_prompts_run, Hd, Hf, Ha, drop_0.
  apply Nat.eqb_eq in Hl. rewrite Hl. simpl.
  rewrite bind_run. unfold get_prompt, bind, get_trace, emit, lift. simpl.
  rewrite Hg, Hm. simpl. unfold ret.
  destruct (ainvoke agent _ thread_id _) as [w3 [final|e]]; [|done].
  unfold print. by destruct (last final).
Qed.

Lemma handle_prompt_runs_rendered_prompt_witness :
  stdout (handle_prompt wiki_session [] "/prompt test_prompt 'Marie Curie' Physics"
            (compile (wiki_graph lookup_then_answer)) w0).1
  = [nl +:+ "=== Prompt Result ==="; "Marie Curie was a physicist and chemist."].
Proof.
  rewrite (handle_prompt_runs_rendered_prompt wiki_session []
             (compile (wiki_graph lookup_then_answer))
             "/prompt test_prompt 'Marie Curie' Physics" w0
             "/prompt" "test_prompt" ["Marie Curie"; "Physics"]
             {| prompts := [two_arg_prompt] |} two_arg_prompt
             [ {| arg_name := "arg1" |}; {| arg_name := "arg2" |} ]
             {| messages := [ TextContent "rendered" ] |} "rendered" []
             eq_refl eq_refl eq_refl eq_refl eq_refl eq_refl eq_refl).
  vm_compute. reflexivity.
Defined.

Lemma prefix_app p u : String.prefix p u = true -> exists r, u = p +:+ r.
Proof.
  revert u. induction p as [|c p IH]; intros u H.
  - by exists u.
  - destruct u as [|x u]; [done|]. simpl in H.
    destruct (ascii_dec c x) as [->|]; [|done].
    destruct (IH u H) as (r & ->). by exists r.
Qed.

Lemma prefix_append p r : String.prefix p (p +:+ r) = true.
Proof.
  induction p as [|c p IH]; [by destruct r|].
  rewrite append_cons. simpl. by destruct (ascii_dec c c).
Qed.

(** X6: every line that starts with [/prompts] also starts with
    [/prompt], and the loop takes it as the listing command whatever
    follows: such a line never reaches [handle_prompt]. *)
Theorem listing_prefix_wins (s : session) (tools : list Tool) (agent : Agent)
  (line : string) :
  startswith (strip line) "/prompts" = true ->
  startswith (strip line) "/prompt" = true
  /\ loop_body s tools agent line = (list_prompts s ;;; ret Continue).
Proof.
  unfold startswith. intros H.
  destruct (prefix_app _ _ H) as (r & Hr).
  assert (Hex : is_exit_token (strip line) = false) by (by rewrite Hr).
  split.
  - rewrite Hr. change ("/prompts" +:+ r) with ("/prompt" +:+ ("s" +:+ r)).
    apply prefix_append.
  - unfold loop_body, startswith. by rewrite exit_test, Hex, H.
Qed.

Lemma listing_prefix_wins_witness :
  loop_body wiki_session [] (compile (wiki_graph unauthenticated)) " /prompts now"
  = (list_prompts wiki_session ;;; ret Continue).
Proof.
  exact (proj2 (listing_prefix_wins wiki_session []
                  (compile (wiki_graph unauthenticated)) " /prompts now" eq_refl)).
Defined.

(** X2: [main] asks the backend for its tools twice before the first
    prompt, once for itself and once in [create_graph]; when either
    request fails [main] raises that exception, with no banner printed
    and no line read; otherwise it prints the four banner lines and
    enters the loop with an agent over the second answer. *)

Theorem main_startup (llm : chat_model) (s : session) (stdin : list string)
  (w : world) :
  let w1 := add_event EvListTools w in
  let w2 := add_event EvListTools w1 in
  main llm s stdin w =
    match s_list_tools s (trace w) with
    | Raise e => (w1, Raise e)
    | Ok first =>
        match s_list_tools s (trace w1) with
        | Raise e => (w2, Raise e)
        | Ok second =>
            repl s (map (make_tool s) (tools first))
              (compile {| graph_tools := map (make_tool s) (tools second);
                          graph_llm := llm;
                          recursion_limit := default_recursion_limit |})
              stdin (with_stdout w2 banner)
        end
    end.
Proof.
  intros w1 w2. unfold main. rewrite bind_run, load_mcp_tools_run.
  destruct (s_list_tools s (trace w)) as [first|e]; [|done].
  rewrite bind_run, create_graph_run. fold w1.
  destruct (s_list_tools s (trace w1)) as [second|e]; [|done].
  do 4 (rewrite bind_run; unfold print at 1).
  f_equal. unfold with_stdout, add_line, banner. simpl.
  by rewrite <- !app_assoc.
Qed.

Lemma loop_body_continue s tools agent line w w' fl :
  is_exit_token (strip line) = false ->
  loop_body s tools agent line w = (w', Ok fl) -> fl = Continue.
Proof.
  intros Hex. unfold loop_body. rewrite exit_test, Hex.
  destruct (startswith (strip line) "/prompts").
  { rewrite bind_run. destruct (list_prompts s w) as [? [?|?]]; [|done].
    by intros [= _ <-]. }
  destruct (startswith (strip line) "/prompt").
  { rewrite bind_run. destruct (handle_prompt s tools _ agent w) as [? [?|?]]; [|done].
    by intros [= _ <-]. }
  rewrite bind_run. destruct (ask agent _ w) as [? [?|?]]; [|done].
  by intros [= _ <-].
Qed.

(** X3: the loop returns normally only at an exit token: the lines
    before it were no exit tokens, and the lines after it are never
    read: with any other lines in their place the loop ends in the same
    world. *)
Theorem repl_returns_only_on_exit (s : session) (tools : list Tool)
  (agent : Agent) (stdin : list string) (w w' : world) :
  repl s tools agent stdin w = (w', Ok tt) ->
  exists before line after,
    stdin = before ++ line :: after
    /\ is_exit_token (strip line) = true
    /\ Forall (fun l => is_exit_token (strip l) = false) before
    /\ forall other, repl s tools agent (before ++ line :: other) w = (w', Ok tt).
Proof.
  revert w. induction stdin as [|line rest IH]; intros w Hrun.
  - simpl in Hrun. rewrite bind_run in Hrun. done.
  - simpl in Hrun. rewrite bind_run in Hrun. unfold print at 1 in Hrun.
    rewrite bind_run in Hrun.
    destruct (is_exit_token (strip line)) eqn:Hex.
    + exists [], line, rest. repeat split; [done|constructor|].
      intros other. simpl. rewrite bind_run. unfold print at 1.
      rewrite bind_run.
      unfold loop_body in *. rewrite exit_test, Hex in *. exact Hrun.
    + destruct (loop_body s tools agent line _) as [w1 [fl|e]] eqn:Hb; [|done].
      apply loop_body_continue in Hb as Hfl; [|done]. subst fl.
      apply IH in Hrun as (before & l & after & -> & Hl & Hall & Hother).
      exists (line :: before), l, after.
      repeat split; [done|by constructor|].
      intros other. simpl. rewrite bind_run. unfold print at 1.
      rewrite bind_run, Hb. apply Hother.
Qed.

Lemma repl_returns_only_on_exit_witness :
  exists before line after,
    [question; " Q "; "never read"] = before ++ line :: after
    /\ is_exit_token (strip line) = true
    /\ Forall (fun l => is_exit_token (strip l) = false) before
    /\ forall other,
         repl wiki_session [] (compile (wiki_graph unauthenticated))
           (before ++ line :: other) w0
         = ((repl wiki_session [] (compile (wiki_graph unauthenticated))
               [question; " Q "; "never read"] w0).1, Ok tt).
Proof.
  apply (repl_returns_only_on_exit wiki_session []
           (compile (wiki_graph unauthenticated)) [question; " Q "; "never read"] w0
           (repl wiki_session [] (compile (wiki_graph unauthenticated))
              [question; " Q "; "never read"] w0).1).
  vm_compute. reflexivity.
Defined.

Lemma loop_body_question s tools agent line :
  classify (strip line) = CmdQuestion ->
  loop_body s tools agent line = (ask agent (strip line) ;;; ret Continue).
Proof.
  unfold classify, loop_body. rewrite exit_test.
  destruct (is_exit_token (strip line)); [done|].
  destruct (startswith (strip line) "/prompts"); [done|].
  by destruct (startswith (strip line) "/prompt").
Qed.

(** X4: a console input of plain questions only never ends the loop
    through the agent, whatever the agent does or raises: the loop ends
    at the end of the input, where [input] raises [EOFError]. *)
Theorem questions_never_end_the_session (s : session) (tools : list Tool)
  (agent : Agent) (stdin : list string) (w : world) :
  Forall (fun l => classify (strip l) = CmdQuestion) stdin ->
  exists w', repl s tools agent stdin w = (w', Raise EOFError).
Proof.
  intros Hall. revert w. induction Hall as [|line rest Hq _ IH]; intros w.
  - simpl. rewrite bind_run. unfold print, raise. eauto.
  - simpl. rewrite bind_run. unfold print at 1.
    rewrite bind_run, loop_body_question by done.
    rewrite bind_run.
    destruct (ask_never_raises agent (strip line) (add_line (nl +:+ "You: ") w))
      as (w1 & ->).
    unfold ret. apply IH.
Qed.

Lemma questions_never_end_the_session_witness :
  exists w',
    repl wiki_session [] (compile (wiki_graph unauthenticated))
      [question; "and Pierre?"] w0 = (w', Raise EOFError).
Proof.
  apply (questions_never_end_the_session wiki_session []
           (compile (wiki_graph unauthenticated)) [question; "and Pierre?"] w0).
  repeat constructor.
Defined.

(** X16: when the model answers the question without asking for a
    tool, the turn is one model call on the stored conversation plus the
    question, and it returns and stores that conversation followed by the
    answer. *)

Theorem direct_answer_turn (g : graph) (u : string) (thread : string)
  (w : world) (text : string) :
  recursion_limit g <> 0 ->
  let asked := conversation w thread ++ [HumanMessage u] in
  let context := SystemMessage system_prompt :: asked in
  graph_llm g (trace w) context = Ok (text, []) ->
  graph_ainvoke g [HumanMessage u] thread w
  = (set_checkpoint thread (asked ++ [AIMessage text []])
       (add_event (EvModel context) (set_checkpoint thread asked w)),
     Ok (asked ++ [AIMessage text []])).
Proof.
  intros Hlim asked context Hllm. unfold graph_ainvoke.
  rewrite bind_run, get_state_run, bind_run. unfold put_state, add_messages.
  destruct (recursion_limit g) as [|n]; [done|]. simpl.
  rewrite bind_run, get_state_run, conversation_set.
  rewrite bind_run, chat_node_run. cbv zeta. simpl.
  fold asked. fold context. rewrite Hllm. simpl.
  rewrite bind_run. unfold put_state, add_messages.
  by rewrite tools_condition_snoc.
Qed.

Lemma direct_answer_turn_witness :
  (graph_ainvoke (wiki_graph (fun _ _ => Ok ("Hello.", []))) [HumanMessage "Hi"]
     thread_id w0).2
  = Ok [HumanMessage "Hi"; AIMessage "Hello." []].
Proof.
  rewrite (direct_answer_turn (wiki_graph (fun _ _ => Ok ("Hello.", []))) "Hi"
             thread_id w0 "Hello."); [reflexivity|done|reflexivity].
Defined.

Section LoadedToolsMore.
Variables (s : session) (ts : list McpTool) (llm : chat_model) (limit : nat).

Let g : graph :=
  {| graph_tools := map (make_tool s) ts; graph_llm := llm;
     recursion_limit := limit |}.

Lemma run_tool_call_events tc w w' m :
  run_tool_call (map (make_tool s) ts) tc w = (w', Ok m) ->
  exists evs, trace w' = trace w ++ evs /\ Forall turn_event evs.
Proof.
  rewrite run_tool_call_run. intros [= <- _].
  exists []. split; [by rewrite app_nil_r|constructor].
Qed.

Lemma run_tool_calls_events calls w w' ms :
  run_tool_calls (map (make_tool s) ts) calls w = (w', Ok ms) ->
  exists evs, trace w' = trace w ++ evs /\ Forall turn_event evs.
Proof.
  revert w w' ms. induction calls as [|tc calls IH]; intros w w' ms; simpl.
  - intros [= <- _]. exists []. split; [by rewrite app_nil_r|constructor].
  - rewrite bind_run.
    destruct (run_tool_call_total (map (make_tool s) ts) tc w) as (w1 & text & H1).
    rewrite H1, bind_run.
    apply run_tool_call_events in H1 as (evs1 & Ht1 & Ho1).
    destruct (run_tool_calls (map (make_tool s) ts) calls w1) as [w2 [ms2|e]] eqn:H2;
      [|done].
    apply IH in H2 as (evs2 & Ht2 & Ho2).
    intros [= <- _]. exists (evs1 ++ evs2).
    split; [by rewrite Ht2, Ht1, app_assoc|by apply Forall_app].
Qed.

Lemma run_graph_events th steps :
  forall nd w w' r,
    run_graph g th steps nd w = (w', r) ->
    exists evs, trace w' = trace w ++ evs /\ Forall turn_event evs.
Proof.
  induction steps as [|steps IH]; intros nd w w' r Hrun.
  { injection Hrun as <- _. exists []. by rewrite app_nil_r. }
  simpl in Hrun. rewrite bind_run, get_state_run in Hrun.
  destruct nd.
  - rewrite bind_run, chat_node_run in Hrun. cbv zeta in Hrun.
    destruct (llm (trace w) _) as [[text calls]|e] eqn:Hllm.
    + rewrite bind_run in Hrun. unfold put_state, add_messages in Hrun.
      simpl in Hrun.
      destruct (tools_condition _).
      * apply IH in Hrun as (evs & Ht & Hall). simpl in Ht.
        eexists (_ :: evs). rewrite <- app_assoc in Ht. split; [exact Ht|].
        by constructor.
      * injection Hrun as <- _. eexists [_]. split; [reflexivity|].
        by repeat constructor.
    + injection Hrun as <- _. eexists [_]. split; [reflexivity|].
      by repeat constructor.
  - unfold tool_node in Hrun.
    destruct (last _) as [[t|t|text calls|t i]|] eqn:Hlast;
      try (injection Hrun as <- _; exists []; by rewrite app_nil_r).
    rewrite bind_run in Hrun.
    destruct (run_tool_calls_total (map (make_tool s) ts) calls w)
      as (w1 & results & Hcalls & Hlen & Hall).
    simpl in Hrun. rewrite Hcalls, bind_run in Hrun. unfold put_state in Hrun.
    apply run_tool_calls_events in Hcalls as (tevs & Htt & Hto).
    apply IH in Hrun as (evs & Ht & Hev). simpl in Ht. rewrite Htt in Ht.
    exists (tevs ++ evs). rewrite <- app_assoc in Ht. split; [done|].
    by apply Forall_app.
Qed.

(** X18: whatever the outcome of a turn, all it did to the outside were
    model calls on a context that starts with the system prompt, and
    tool calls with the single argument [query]; it never lists tools or
    prompts and never renders a prompt. *)
Theorem turn_only_calls_model_and_tools (input : list message) (thread : string)
  (w w' : world) (r : result (list message)) :
  graph_ainvoke g input thread w = (w', r) ->
  exists evs, trace w' = trace w ++ evs /\ Forall turn_event evs.
Proof.
  unfold graph_ainvoke. rewrite bind_run, get_state_run, bind_run.
  unfold put_state. intros Hrun. by apply run_graph_events in Hrun.
Qed.

Lemma run_graph_first_call th steps w w' r :
  steps <> 0 ->
  run_graph g th steps ChatNode w = (w', r) ->
  exists evs,
    trace w' = trace w
               ++ EvModel (SystemMessage system_prompt :: conversation w th) :: evs.
Proof.
  destruct steps as [|n]; [done|]. intros _ H2. simpl in H2.
  rewrite bind_run, get_state_run in H2.
  rewrite bind_run, chat_node_run in H2. cbv zeta in H2.
  destruct (llm _ _) as [[text calls]|e].
  - rewrite bind_run in H2. unfold put_state, add_messages in H2. simpl in H2.
    destruct (tools_condition _).
    + apply run_graph_events in H2 as (evs & Ht & _). simpl in Ht.
      exists evs. by rewrite <- app_assoc in Ht.
    + injection H2 as <- _. by exists [].
  - injection H2 as <- _. by exists [].
Qed.

(** X17: after a turn that completed, the first thing the next turn does
    is a model call whose context is the system prompt, every message of
    the completed turn's conversation, and the new question. *)
Theorem next_turn_sees_history (u1 u2 : string) (w w1 : world)
  (final : list message) :
  limit <> 0 ->
  graph_ainvoke g [HumanMessage u1] thread_id w = (w1, Ok final) ->
  exists w2 r evs,
    graph_ainvoke g [HumanMessage u2] thread_id w1 = (w2, r)
    /\ trace w2 = trace w1
                  ++ EvModel (SystemMessage system_prompt :: final ++ [HumanMessage u2])
                  :: evs.
Proof.
  intros Hlim Hrun.
  assert (Hconv : conversation w1 thread_id = final).
  { unfold graph_ainvoke in Hrun. rewrite bind_run, get_state_run, bind_run in Hrun.
    by apply run_graph_ok in Hrun as [? _]. }
  destruct (graph_ainvoke g [HumanMessage u2] thread_id w1) as [w2 r] eqn:H2.
  exists w2, r. unfold graph_ainvoke in H2.
  rewrite bind_run, get_state_run, bind_run in H2. unfold put_state, add_messages in H2.
  apply run_graph_first_call in H2 as (evs & Ht); [|done].
  rewrite conversation_set, Hconv in Ht. by exists evs.
Qed.
End LoadedToolsMore.

Lemma turn_only_calls_model_and_tools_witness :
  exists evs, trace after_lookup_turn = trace w0 ++ evs /\ Forall turn_event evs.
Proof.
  apply (turn_only_calls_model_and_tools wiki_session
           [ {| tool_name := "fetch_wikipedia_info";
                tool_description := Some "Search Wikipedia" |} ]
           lookup_then_answer default_recursion_limit
           [HumanMessage question] thread_id w0 after_lookup_turn (Ok lookup_turn)).
  vm_compute. reflexivity.
Defined.

Lemma next_turn_sees_history_witness :
  exists w2 r evs,
    graph_ainvoke (wiki_graph lookup_then_answer) [HumanMessage "And Pierre?"]
      thread_id after_lookup_turn = (w2, r)
    /\ trace w2 = trace after_lookup_turn
                  ++ EvModel (SystemMessage system_prompt
                                :: lookup_turn ++ [HumanMessage "And Pierre?"])
                  :: evs.
Proof.
  apply (next_turn_sees_history wiki_session
           [ {| tool_name := "fetch_wikipedia_info";
                tool_description := Some "Search Wikipedia" |} ]
           lookup_then_answer default_recursion_limit
           question "And Pierre?" w0 after_lookup_turn lookup_turn); [done|].
  vm_compute. reflexivity.
Defined.

(** X19: [list_wikipedia_sections] never raises; it returns a dict with
    the single key [sections] when the page and its sections load, and a
    dict with the single key [error] exactly when one of them raised. *)

Theorem list_wikipedia_sections_outcomes (wiki : wikipedia) (topic : string) :
  exists d,
    list_wikipedia_sections wiki topic = Ok d
    /\ ((exists pg secs, page wiki topic = Ok pg /\ sections pg = Ok secs
                         /\ d = {[ "sections" := VList secs ]})
        \/ (exists msg, d = {[ "error" := VStr msg ]}
                        /\ (forall pg, page wiki topic = Ok pg ->
                                       exists e, sections pg = Raise e))).
Proof.
  unfold list_wikipedia_sections, rbind, error_dict.
  destruct (page wiki topic) as [pg|e] eqn:Hp.
  - destruct (sections pg) as [secs|e] eqn:Hs.
    + eexists. split; [reflexivity|]. left. eauto.
    + destruct e; eexists; (split; [reflexivity|]); right;
        (eexists; split; [reflexivity|]); intros ? [= <-]; eauto.
  - destruct e; eexists; (split; [reflexivity|]); right;
      (eexists; split; [reflexivity|]); done.
Qed.

(** X20: [get_section_content] never raises; it returns a dict with the
    single key [content], whose text is the non-empty text of the
    section, or a dict with the single key [error]. *)
Theorem get_section_content_outcomes (wiki : wikipedia)
  (topic section_title : string) :
  exists d,
    get_section_content wiki topic section_title = Ok d
    /\ ((exists pg text, page wiki topic = Ok pg
                         /\ section pg section_title = Ok (Some text)
                         /\ text <> EmptyString
                         /\ d = {[ "content" := VStr text ]})
        \/ (exists msg, d = {[ "error" := VStr msg ]})).
Proof.
  unfold get_section_content, rbind, error_dict.
  destruct (page wiki topic) as [pg|e] eqn:Hp.
  - destruct (section pg section_title) as [[[|c rest]|]|e] eqn:Hs.
    + eexists. split; [reflexivity|]. right. eauto.
    + eexists. split; [reflexivity|]. left. exists pg, (String c rest). done.
    + eexists. split; [reflexivity|]. right. eauto.
    + destruct e; eexists; (split; [reflexivity|]); right; eauto.
  - destruct e; eexists; (split; [reflexivity|]); right; eauto.
Qed.

(** X21: for a section that is missing or empty the error text names
    the section and the topic. *)
Theorem missing_section_is_named (wiki : wikipedia) (topic section_title : string)
  (pg : WikipediaPage) :
  page wiki topic = Ok pg ->
  section pg section_title = Ok None
  \/ section pg section_title = Ok (Some EmptyString) ->
  exists msg,
    get_section_content wiki topic section_title = Ok {[ "error" := VStr msg ]}
    /\ contains msg section_title /\ contains msg topic.
Proof.
  intros Hp Hs. unfold get_section_content, rbind, error_dict. rewrite Hp.
  eexists. split; [by destruct Hs as [-> | ->]|]. split.
  - apply contains_mid.
  - exists ("Section '" +:+ section_title +:+ "' not found in article '"), "'.".
    by rewrite !append_assoc.
Qed.

Lemma missing_section_is_named_witness :
  exists msg,
    get_section_content online "Python programming" "NonexistentSection"
    = Ok {[ "error" := VStr msg ]}
    /\ contains msg "NonexistentSection" /\ contains msg "Python programming".
Proof.
  apply (missing_section_is_named online "Python programming" "NonexistentSection"
           history_page eq_refl). by left.
Defined.

(** X22: the three tools report an ambiguous title with one and the same
    dict: the key [error] and the text
    [Ambiguous topic. Try one of these: ] followed by the first five
    options at most, joined by commas. *)
Theorem ambiguity_is_reported_alike (wiki : wikipedia) (topic section_title : string)
  (name : string) (options : list string) :
  page wiki topic = Raise (DisambiguationError name options) ->
  let report : gmap string value :=
    {[ "error" := VStr ("Ambiguous topic. Try one of these: "
                          +:+ join ", " (take 5 options)) ]} in
  list_wikipedia_sections wiki topic = Ok report
  /\ get_section_content wiki topic section_title = Ok report
  /\ (forall query rest, search wiki query = Ok (topic :: rest) ->
        fetch_wikipedia_info wiki query = Ok report)
  /\ length (take 5 options) <= 5.
Proof.
  intros Hp report.
  unfold list_wikipedia_sections, get_section_content, fetch_wikipedia_info, rbind.
  rewrite Hp. split; [done|]. split; [done|]. split.
  - intros query rest ->. by rewrite Hp.
  - rewrite length_take. lia.
Qed.

Lemma ambiguity_is_reported_alike_witness :
  fetch_wikipedia_info ambiguous_wiki "Python"
  = Ok {[ "error" := VStr ("Ambiguous topic. Try one of these: "
            +:+ "Python (programming language), Python (mythology), Python (snake), "
            +:+ "Monty Python, Python (film)") ]}.
Proof.
  destruct (ambiguity_is_reported_alike ambiguous_wiki "Python" "History"
              "Python" python_options eq_refl) as (_ & _ & Hf & _).
  exact (Hf "Python" [] eq_refl).
Defined.

(** X23: [fetch_wikipedia_info] looks at the first search result only:
    dropping the other results changes nothing. *)
Theorem fetch_uses_first_result_only (wiki : wikipedia) (query : string) :
  fetch_wikipedia_info (first_result_only wiki) query
  = fetch_wikipedia_info wiki query.
Proof.
  unfold fetch_wikipedia_info, first_result_only, rbind. simpl.
  by destruct (search wiki query) as [[|best rest]|e].
Qed.



(** X1: when the backend answers a call made for a loaded tool, the
    tool's function returns the text of the first content item and
    ignores the rest; with no content it returns [No result]; a first item
    without text gives the error text, not an exception. *)
Theorem tool_result_is_first_text (s : session) (w0 w1 : world)
  (registry : list Tool) (d : Tool) (input : string) (w : world)
  (r : CallToolResult) :
  load_mcp_tools s w0 = (w1, Ok registry) ->
  d ∈ registry ->
  s_call_tool s (trace w) (name d) {[ "query" := input ]} = Ok r ->
  func d input w
  = (add_event (EvCallTool (name d) {[ "query" := input ]}) w,
     Ok match content r with
        | [] => "No result"
        | TextContent text :: _ => text
        | ImageContent _ :: _ =>
            "Error calling tool " +:+ name d
              +:+ ": 'ImageContent' object has no attribute 'text'"
        end).
Proof.
  intros Hload Hin Hcall.
  rewrite load_mcp_tools_run in Hload.
  destruct (s_list_tools s (trace w0)) as [resp|e0]; [|done].
  injection Hload as _ <-.
  apply made_tool_in in Hin as (t0 & _ & ->). simpl in *.
  unfold create_tool_func. rewrite tool_func_run, Hcall.
  by destruct (content r) as [|[t|i] rest].
Qed.

Lemma tool_result_is_first_text_witness :
  (func (make_tool wiki_session
           {| tool_name := "fetch_wikipedia_info";
              tool_description := Some "Search Wikipedia" |})
     "Marie Curie" w0).2
  = Ok "title: Marie Curie".
Proof.
  rewrite (tool_result_is_first_text wiki_session w0 (add_event EvListTools w0)
             wiki_tools _ "Marie Curie" w0
             {| content := [ TextContent "title: Marie Curie" ] |}
             eq_refl (list_elem_of_here _ _) eq_refl).
  reflexivity.
Defined.

(** * The dispatcher, case by case *)

Lemma startswith_spec u p : startswith u p = true <-> exists r, u = p +:+ r.
Proof.
  unfold startswith. split; [apply prefix_app|].
  intros (r & ->). apply prefix_append.
Qed.

Lemma exit_tokens_spec u :
  is_exit_token u = true <-> lower u = "exit" \/ lower u = "quit" \/ lower u = "q".
Proof.
  rewrite <- exit_test, bool_decide_eq_true. unfold exit_tokens.
  rewrite !elem_of_union, !elem_of_singleton. tauto.
Qed.

Lemma classify_spec u :
  (classify u = CmdExit <-> lower u = "exit" \/ lower u = "quit" \/ lower u = "q")
  /\ (classify u = CmdListPrompts <->
        classify u <> CmdExit /\ exists r, u = "/prompts" +:+ r)
  /\ (classify u = CmdRunPrompt <->
        classify u <> CmdExit
        /\ (~ exists r, u = "/prompts" +:+ r)
        /\ exists r, u = "/prompt" +:+ r)
  /\ (classify u = CmdQuestion <->
        classify u <> CmdExit /\ ~ exists r, u = "/prompt" +:+ r).
Proof.
  rewrite <- exit_tokens_spec, <- !startswith_spec.
  assert (Himp : startswith u "/prompts" = true -> startswith u "/prompt" = true).
  { rewrite !startswith_spec. intros (r & ->). exists ("s" +:+ r). done. }
  unfold classify.
  destruct (is_exit_token u); [by intuition|].
  destruct (startswith u "/prompts"); [by intuition|].
  destruct (startswith u "/prompt"); by intuition.
Qed.

(** C7: the loop handles the stripped line [u] by its class.  The
    classes are taken in this order: [u] is one of the tokens exit,
    quit, q in any case; else [u] starts with [/prompts]; else [u]
    starts with [/prompt]; else [u] is a question.  An exit token ends
    the loop with nothing done, and no later line is read.  A listing
    line asks the session for its prompts and prints the catalog.  A
    run-prompt line is split into tokens, the prompt is looked up in
    the catalog, its arguments are counted, and it is rendered and sent
    to the agent.  Every other line is sent to the agent, whole, as one
    user message on the session's thread, and the content of the last
    message of the answer is printed.  After each of the last three the
    loop reads on, unless the step raised. *)
Theorem dispatcher_classifies_in_priority_order (s : session) (tools : list Tool)
  (agent : Agent) (line : string) :
  let u := strip line in
  ((classify u = CmdExit <-> lower u = "exit" \/ lower u = "quit" \/ lower u = "q")
   /\ (classify u = CmdListPrompts <->
         classify u <> CmdExit /\ exists r, u = "/prompts" +:+ r)
   /\ (classify u = CmdRunPrompt <->
         classify u <> CmdExit
         /\ (~ exists r, u = "/prompts" +:+ r)
         /\ exists r, u = "/prompt" +:+ r)
   /\ (classify u = CmdQuestion <->
         classify u <> CmdExit /\ ~ exists r, u = "/prompt" +:+ r))
  /\ (forall w,
        loop_body s tools agent line w =
          let failed e w1 :=
            (add_line ("Prompt invocation failed: " +:+ str_exn e) w1, Ok Continue) in
          match classify u with
          | CmdExit => (w, Ok Break)
          | CmdListPrompts =>
              let w1 := add_event EvListPrompts w in
              match s_list_prompts s (trace w) with
              | Raise e => (w1, Raise e)
              | Ok (Some {| prompts := p :: ps |}) =>
                  (with_stdout w1
                     (listing_header :: flat_map prompt_lines (p :: ps)
                        ++ [listing_usage]),
                   Ok Continue)
              | Ok _ => (add_line "No prompts found on the server." w1, Ok Continue)
              end
          | CmdRunPrompt =>
              match shlex_split u with
              | Raise e => (w, Raise e)
              | Ok ([] | [_]) => (add_line usage_line w, Ok Continue)
              | Ok (_ :: prompt :: args) =>
                  let w1 := add_event EvListPrompts w in
                  match s_list_prompts s (trace w) with
                  | Raise e => failed e w1
                  | Ok None =>
                      failed (AttributeError
                                "'NoneType' object has no attribute 'prompts'") w1
                  | Ok (Some defs) =>
                      match find (fun p => String.eqb (prompt_name p) prompt)
                                 (prompts defs) with
                      | None =>
                          (add_line ("Prompt '" +:+ prompt +:+ "' not found.") w1,
                           Ok Continue)
                      | Some found =>
                          match arguments found with
                          | None =>
                              failed (TypeError
                                        "object of type 'NoneType' has no len()") w1
                          | Some margs =>
                              if (length args =? length margs)%nat then
                                let values := arg_values_of margs args in
                                let w2 := add_event (EvGetPrompt prompt values) w1 in
                                match s_get_prompt s (trace w1) prompt values with
                                | Raise e => failed e w2
                                | Ok response =>
                                    match messages response with
                                    | [] =>
                                        failed (IndexError "list index out of range") w2
                                    | ImageContent _ :: _ =>
                                        failed (AttributeError
                                                  "'ImageContent' object has no attribute 'text'")
                                               w2
                                    | TextContent text :: _ =>
                                        match ainvoke agent [HumanMessage text]
                                                thread_id w2 with
                                        | (w3, Raise e) => failed e w3
                                        | (w3, Ok final) =>
                                            let w4 :=
                                              add_line (nl +:+ "=== Prompt Result ===") w3 in
                                            match last final with
                                            | Some m =>
                                                (add_line (message_text m) w4,
                                                 Ok Continue)
                                            | None =>
                                                failed (IndexError
                                                          "list index out of range") w4
                                            end
                                        end
                                    end
                                end
                              else
                                (add_line ("Expected " +:+ pretty (length margs)
                                             +:+ " arguments: "
                                             +:+ join ", " (map arg_name margs)) w1,
                                 Ok Continue)
                          end
                      end
                  end
              end
          | CmdQuestion =>
              match ainvoke agent [HumanMessage u] thread_id w with
              | (w1, Raise e) => (add_line ("Error: " +:+ str_exn e) w1, Ok Continue)
              | (w1, Ok final) =>
                  match last final with
                  | Some m => (add_line ("AI: " +:+ message_text m) w1, Ok Continue)
                  | None => (add_line "Error: list index out of range" w1, Ok Continue)
                  end
              end
          end)
  /\ (forall rest w,
        repl s tools agent (line :: rest) w =
          let w1 := add_line (nl +:+ "You: ") w in
          match classify u with
          | CmdExit => (w1, Ok tt)
          | _ =>
              match loop_body s tools agent line w1 with
              | (w2, Ok _) => repl s tools agent rest w2
              | (w2, Raise e) => (w2, Raise e)
              end
          end).
Proof.
  intros u. split; [apply classify_spec|].
  assert (Hbody : loop_body s tools agent line =
    match classify u with
    | CmdExit => ret Break
    | CmdListPrompts => (list_prompts s ;;; ret Continue)
    | CmdRunPrompt => (handle_prompt s tools u agent ;;; ret Continue)
    | CmdQuestion => (ask agent u ;;; ret Continue)
    end).
  { unfold loop_body, classify. fold u. rewrite exit_test.
    destruct (is_exit_token u); [done|].
    destruct (startswith u "/prompts"); [done|].
    by destruct (startswith u "/prompt"). }
  split.
  - intros w. rewrite Hbody. cbv zeta.
    destruct (classify u); [done| | |].
    + rewrite bind_run. unfold list_prompts.
      rewrite bind_run, session_list_prompts_run.
      destruct (s_list_prompts s (trace w)) as [[[[|p ps]]|]|e]; try done.
      rewrite bind_run. unfold print at 1. rewrite bind_run, for_each_prompt_lines.
      generalize (flat_map prompt_lines (p :: ps)). intros lines.
      rewrite bind_run. unfold print, ret.
      unfold with_stdout, add_line, listing_header, listing_usage. simpl.
      by rewrite <- !app_assoc.
    + rewrite bind_run. unfold handle_prompt. rewrite bind_run. unfold lift.
      subst u. rewrite strip_idempotent.
      destruct (shlex_split (strip line)) as [[|cmd [|prompt args]]|e];
        [done|done| |done].
      simpl. unfold try_except.
      rewrite bind_run, session_list_prompts_run.
      destruct (s_list_prompts s (trace w)) as [[defs|]|e]; [|done|done].
      destruct (find _ (prompts defs)) as [found|]; [|done].
      destruct (arguments found) as [margs|]; [|done].
      rewrite drop_0.
      destruct (length args =? length margs)%nat; [|done].
      cbn [negb]. rewrite bind_run.
      unfold get_prompt, bind, get_trace, emit, lift.
      cbn [trace add_event].
      destruct (s_get_prompt s _ prompt _) as [response|e]; [|done].
      destruct (messages response) as [|[text|d] more]; [done| |done].
      simpl. unfold ret.
      destruct (ainvoke agent _ thread_id _) as [w3 [final|e]]; [|done].
      unfold print. by destruct (last final).
    + rewrite bind_run, ask_run.
      destruct (ainvoke agent _ thread_id w) as [w1 [final|e]]; [|done].
      by destruct (last final).
  - intros rest w. cbv zeta. simpl repl. rewrite bind_run. unfold print at 1.
    rewrite !bind_run.
    destruct (classify u) eqn:Hc.
    + rewrite Hbody. done.
    + destruct (loop_body s tools agent line _) as [w2 [fl|e]] eqn:Hb; [|done].
      apply loop_body_continue in Hb as ->; [done|].
      unfold classify in Hc. fold u. by destruct (is_exit_token u).
    + destruct (loop_body s tools agent line _) as [w2 [fl|e]] eqn:Hb; [|done].
      apply loop_body_continue in Hb as ->; [done|].
      unfold classify in Hc. fold u. by destruct (is_exit_token u).
    + destruct (loop_body s tools agent line _) as [w2 [fl|e]] eqn:Hb; [|done].
      apply loop_body_continue in Hb as ->; [done|].
      unfold classify in Hc. fold u. by destruct (is_exit_token u).
Qed.
